(** * Digiac-3080 emulator (digiac.py): a shallow embedding of the CPU

    The class [Digiac3080] is modelled as a record [cpu] threaded through a
    small state-and-exception monad [M]: every handler [_inst_*] of the
    Python source becomes a computation in [M], and the Python exceptions
    used for control flow (EOFError, RuntimeError, ZeroDivisionError,
    KeyboardInterrupt) become the constructors of [exn].

    Not modelled: the throttle [sleep] (it has no effect on the state) and
    the diagnostic [print] calls of [rm], [wm] and [_inst_rt]. The output of
    TA is kept as the list of Digiac codes it prints. *)

From Stdlib Require Import ZArith Lia Bool Ascii String.
From stdpp Require Import base list strings.

Open Scope Z_scope.

(** ** Octal formatting, as used by the f-strings of the source *)

Definition oct_char (d : Z) : ascii :=
  ascii_of_nat (48 + Z.to_nat d).

(** Digits of [n] in base 8, most significant first ([n >= 0]). *)
Fixpoint oct_digits_aux (fuel : nat) (n : Z) (acc : string) : string :=
  match fuel with
  | O => acc
  | S f =>
      let acc' := String (oct_char (n mod 8)) acc in
      if n <? 8 then acc' else oct_digits_aux f (n / 8) acc'
  end.

Definition oct_digits (n : Z) : string := oct_digits_aux 64 n EmptyString.

(** [f"{n:0wo}"]: octal, left-padded with zeros to width [w]. *)
Definition fmt_oct (w : nat) (n : Z) : string :=
  let s := oct_digits n in
  String.append (String.concat "" (List.repeat "0" (w - String.length s))) s.

(** [reg_str("", sgn, val)] *)
Definition reg_str (sgn val : Z) : string :=
  String.append (if sgn =? 0 then "+" else "-") (fmt_oct 8 val).

(** ** Machine state *)

(** Python exceptions raised inside [exec]. [Blocked] stands for
    [readchar()] waiting for a key when the modelled keyboard input is
    exhausted; [AttributeError] is [None.read(1)], never reached since
    [_do_rt] is only called while a tape is attached. *)
Inductive exn :=
| EOFError
| RuntimeError
| ZeroDivisionError
| KeyboardInterrupt
| AttributeError
| Blocked.

Record cpu := mkCpu {
  mem : list Z;                   (* self.mem, array("L") of 4096 words *)
  pc : Z;                         (* self.pc *)
  a : Z * Z;                      (* self.a = (sign, magnitude) *)
  b : Z * Z;                      (* self.b *)
  instruction_count : Z;          (* self.instruction_count *)
  ptr : option (list Z);          (* self.ptr: tape bytes not yet read *)
  bpt : list Z;                   (* self.bpt *)
  acs : list Z;                   (* self.acs *)
  run : bool;                     (* self.run *)
  opcode : Z;                     (* self._opcode *)
  count : Z;                      (* self._count *)
  addr : Z;                       (* self._addr *)
  kbd : list Z;                   (* code points of readchar().upper() still to come *)
  tty : list Z                    (* Digiac codes printed by TA *)
}.

Definition set_mem s m := mkCpu m s.(pc) s.(a) s.(b) s.(instruction_count) s.(ptr) s.(bpt) s.(acs) s.(run) s.(opcode) s.(count) s.(addr) s.(kbd) s.(tty).
Definition set_pc s p := mkCpu s.(mem) p s.(a) s.(b) s.(instruction_count) s.(ptr) s.(bpt) s.(acs) s.(run) s.(opcode) s.(count) s.(addr) s.(kbd) s.(tty).
Definition set_a s r := mkCpu s.(mem) s.(pc) r s.(b) s.(instruction_count) s.(ptr) s.(bpt) s.(acs) s.(run) s.(opcode) s.(count) s.(addr) s.(kbd) s.(tty).
Definition set_b s r := mkCpu s.(mem) s.(pc) s.(a) r s.(instruction_count) s.(ptr) s.(bpt) s.(acs) s.(run) s.(opcode) s.(count) s.(addr) s.(kbd) s.(tty).
Definition set_icount s n := mkCpu s.(mem) s.(pc) s.(a) s.(b) n s.(ptr) s.(bpt) s.(acs) s.(run) s.(opcode) s.(count) s.(addr) s.(kbd) s.(tty).
Definition set_ptr s p := mkCpu s.(mem) s.(pc) s.(a) s.(b) s.(instruction_count) p s.(bpt) s.(acs) s.(run) s.(opcode) s.(count) s.(addr) s.(kbd) s.(tty).
Definition set_run s r := mkCpu s.(mem) s.(pc) s.(a) s.(b) s.(instruction_count) s.(ptr) s.(bpt) s.(acs) r s.(opcode) s.(count) s.(addr) s.(kbd) s.(tty).
Definition set_decode s o c ad := mkCpu s.(mem) s.(pc) s.(a) s.(b) s.(instruction_count) s.(ptr) s.(bpt) s.(acs) s.(run) o c ad s.(kbd) s.(tty).
Definition set_addr s ad := mkCpu s.(mem) s.(pc) s.(a) s.(b) s.(instruction_count) s.(ptr) s.(bpt) s.(acs) s.(run) s.(opcode) s.(count) ad s.(kbd) s.(tty).
Definition set_kbd s k := mkCpu s.(mem) s.(pc) s.(a) s.(b) s.(instruction_count) s.(ptr) s.(bpt) s.(acs) s.(run) s.(opcode) s.(count) s.(addr) k s.(tty).
Definition set_tty s t := mkCpu s.(mem) s.(pc) s.(a) s.(b) s.(instruction_count) s.(ptr) s.(bpt) s.(acs) s.(run) s.(opcode) s.(count) s.(addr) s.(kbd) t.

(** ** The state-and-exception monad *)

Definition M (A : Type) : Type := cpu -> cpu * (exn + A).

Definition ret {A} (x : A) : M A := fun s => (s, inr x).
Definition raise {A} (e : exn) : M A := fun s => (s, inl e).
Definition bind {A B} (m : M A) (f : A -> M B) : M B :=
  fun s => match m s with
           | (s', inl e) => (s', inl e)
           | (s', inr x) => f x s'
           end.
Definition get : M cpu := fun s => (s, inr s).
Definition modify (f : cpu -> cpu) : M unit := fun s => (f s, inr tt).

(** [try m except e: h e] *)
Definition try_except {A} (m : M A) (h : exn -> M A) : M A :=
  fun s => match m s with
           | (s', inl e) => h e s'
           | r => r
           end.

Notation "'let*' x ':=' m 'in' k" := (bind m (fun x => k))
  (at level 200, x name, m at level 100, k at level 200).

(** ** Words and the memory taps *)

Definition MASK24 : Z := 16777215.        (* 0x00FFFFFF *)
Definition SIGNMASK : Z := 4278190080.    (* 0xFF000000 *)

Definition z_in (x : Z) (l : list Z) : bool := existsb (Z.eqb x) l.

(** [rm]: read memory; an address-compare stop clears the run flag (its
    message goes to the console and is not recorded). The model is exact
    for [0 <= addr < len(self.mem)]: operand addresses are 12-bit masked,
    and the PC is below 4096 in well-formed states ([wf] below), with a
    memory of 4096 words. Past the end, where Python's [self.mem[addr]]
    raises IndexError (reachable e.g. after [D PC 10000]), the model reads
    0 instead; the theorems that depend on this assume [wf] and a memory
    of length 4096. *)
Definition rm (ad : Z) : M Z :=
  fun s =>
    let s' := if z_in ad s.(acs) then set_run s false else s in
    (s', inr (default 0 (s.(mem) !! Z.to_nat ad))).

(** [wm]: write memory; same address-compare stop as [rm]. Exact for
    [0 <= addr < len(self.mem)]; past the end Python raises IndexError,
    while stdpp's list insert leaves the memory unchanged. *)
Definition wm (ad v : Z) : M unit :=
  fun s =>
    let s' := if z_in ad s.(acs) then set_run s false else s in
    (set_mem s' (<[Z.to_nat ad := v]> s'.(mem)), inr tt).

(** ** Modifier unit *)

(** [_shift] *)
Definition shift (cnt val : Z) : Z :=
  Z.land
    (if negb (Z.land cnt 32 =? 0) then Z.shiftr val (64 - cnt)
     else Z.shiftl val cnt)
    MASK24.

(** [_sign] *)
Definition sign (op s : Z) : Z :=
  let sgn := if s =? 0 then 0 else 1 in
  if Z.land op 3 =? 1 then 1 - sgn
  else if Z.land op 3 =? 2 then 0
  else if Z.land op 3 =? 3 then 1
  else sgn.

(** [_arg_fetch] *)
Definition arg_fetch : M (Z * Z) :=
  let* s := get in
  let* wd := rm s.(addr) in
  ret (sign s.(opcode) (Z.land wd SIGNMASK), shift s.(count) (Z.land wd MASK24)).

(** [_store_reg] *)
Definition store_reg (ad : Z) (reg : Z * Z) : M string :=
  let* s := get in
  let sgn := sign s.(opcode) (fst reg) in
  let val := shift s.(count) (snd reg) in
  let* _ := wm ad (Z.shiftl sgn 24 + val) in
  ret ("[" +:+ fmt_oct 4 ad +:+ "] <- " +:+ reg_str sgn val).

Definition clear_run : M unit := modify (fun s => set_run s false).

(** ** Instruction handlers *)

(** [_inst_hlt] *)
Definition inst_hlt : M string :=
  let* _ := clear_run in
  let* s := get in
  ret ("HALTED at " +:+ fmt_oct 4 s.(pc)).

(** [_inst_and] *)
Definition inst_and : M string :=
  let* p := arg_fetch in
  let '(sgn, val) := p in
  let* s := get in
  let sgn := if sgn =? 0 then 0 else fst s.(a) in
  let val := Z.land val (snd s.(a)) in
  let* _ := modify (fun s => set_a s (sgn, val)) in
  ret ("A      <- " +:+ reg_str sgn val).

(** [_inst_cla] *)
Definition inst_cla : M string :=
  let* p := arg_fetch in
  let '(sgn, val) := p in
  let* _ := modify (fun s => set_a s (sgn, val)) in
  ret ("A      <- " +:+ reg_str sgn val).

(** [_inst_add] *)
Definition inst_add : M string :=
  let* s := get in
  let '(sgn, val) := s.(a) in
  let accum := if sgn =? 0 then val else - val in
  let* p := arg_fetch in
  let '(sgn, val) := p in
  let accum := accum + (if sgn =? 0 then val else - val) in
  let sgn := if accum <? 0 then 1 else 0 in
  let accum := Z.land (if sgn =? 0 then accum else - accum) MASK24 in
  let* _ := modify (fun s => set_a s (sgn, accum)) in
  ret ("A      <- " +:+ reg_str sgn accum).

Definition sign_char (sgn : Z) : string := if sgn =? 0 then "+" else "-".

(** [_inst_mlt] *)
Definition inst_mlt : M string :=
  let* s0 := get in
  let '(s, val) := s0.(a) in
  let accum := val in
  let* p := arg_fetch in
  let '(sgn, val) := p in
  let accum := accum * val in
  let sgn := if Bool.eqb (negb (s =? 0)) (negb (sgn =? 0)) then 0 else 1 in
  let a' := Z.land (Z.shiftr accum 24) MASK24 in
  let b' := Z.land accum MASK24 in
  let* _ := modify (fun s => set_b (set_a s (sgn, a')) (sgn, b')) in
  ret ("AB: " +:+ sign_char sgn +:+ fmt_oct 8 a' +:+ " " +:+ fmt_oct 8 b').

(** Python's [//] and [%] on integers (floor division). *)
Definition py_floordiv (x y : Z) : M Z :=
  if y =? 0 then raise ZeroDivisionError else ret (x / y).
Definition py_mod (x y : Z) : M Z :=
  if y =? 0 then raise ZeroDivisionError else ret (x mod y).

(** [_inst_div]: the [try ... except ZeroDivisionError ... else] of the
    source; [None] is the [except] branch, [Some] the [else] branch. *)
Definition inst_div : M string :=
  let* s0 := get in
  let '(sd, dividend) := s0.(a) in
  let* p := arg_fetch in
  let '(sv, divisor) := p in
  let sgn := if Bool.eqb (negb (sd =? 0)) (negb (sv =? 0)) then 0 else 1 in
  let* r := try_except
              (let divdd := Z.shiftl dividend 24 in
               let* q := py_floordiv divdd divisor in
               let* m := py_mod divdd divisor in
               ret (Some (Z.land q MASK24, Z.land m MASK24)))
              (fun e => match e with
                        | ZeroDivisionError => ret None
                        | e => raise e
                        end) in
  match r with
  | None =>
      let* _ := clear_run in
      ret "Divide by Zero Stop"
  | Some (quot, remd) =>
      let '(a', b') := (remd, quot) in
      let* _ := modify (fun s => set_b (set_a s (sgn, a')) (sgn, b')) in
      ret ("AB: " +:+ sign_char sgn +:+ fmt_oct 8 a' +:+ " " +:+ fmt_oct 8 b')
  end.

(** [_inst_sta], [_inst_stb] *)
Definition inst_sta : M string := let* s := get in store_reg s.(addr) s.(a).
Definition inst_stb : M string := let* s := get in store_reg s.(addr) s.(b).

(** [_inst_jmp] *)
Definition inst_jmp : M string :=
  let* s := get in
  let* _ := modify (fun s' => set_pc s' s.(addr)) in
  let* s := get in
  ret ("PC     <-      " +:+ fmt_oct 4 s.(pc)).

(** [_inst_br_minus], [_inst_br_plus], [_inst_brz] *)
Definition inst_br_minus : M string :=
  let* s := get in
  let '(sgn, val) := s.(a) in
  if negb (sgn =? 0) && negb (val =? 0) then inst_jmp else ret "no branch".
Definition inst_br_plus : M string :=
  let* s := get in
  let '(sgn, val) := s.(a) in
  if (sgn =? 0) && negb (val =? 0) then inst_jmp else ret "no branch".
Definition inst_brz : M string :=
  let* s := get in
  let val := snd s.(a) in
  if negb (val =? 0) then ret "no branch" else inst_jmp.

Definition next_addr : M unit :=
  modify (fun s => set_addr s (Z.land (s.(addr) + 1) 4095)).

(** The [for idx in range(n)] loop of [_inst_ta]; [buf] holds the codes
    whose glyphs [_ta_char(c)] are printed. *)
Fixpoint ta_loop (n : nat) (idx wd : Z) (buf : list Z) : M (list Z) :=
  match n with
  | O => ret buf
  | S n' =>
      let* wd := if idx mod 4 =? 0
                 then (let* s := get in
                       let* w := rm s.(addr) in
                       let* _ := next_addr in
                       ret w)
                 else ret wd in
      let c := Z.land (Z.shiftr wd 18) 63 in
      let wd := Z.shiftl wd 6 in
      let buf := if negb (c =? 54) then buf ++ [c] else buf in
      ta_loop n' (idx + 1) wd buf
  end.

(** [_inst_ta] *)
Definition inst_ta : M string :=
  let* s := get in
  let* buf := ta_loop (Z.to_nat ((64 - s.(count)) * 4)) 0 0 [] in
  let* _ := modify (fun s => set_tty s (s.(tty) ++ buf)) in
  let* s := get in
  ret ("next addr:     " +:+ fmt_oct 4 s.(addr)).

(** ** Paper-tape reader *)

(** The [while num_cols > 0] loop of [_do_rt] over the bytes still on the
    tape. The first component is the new [self.ptr]: [None] once EOF closed
    the tape. [sgn] is [None] until the sign byte has been read, so it is
    [Some] whenever [num_cols] has reached 0. *)
Fixpoint do_rt_loop (tape : list Z) (num_cols : Z) (sgn : option Z) (val : Z)
  : option (list Z) * (exn + Z) :=
  if 0 <? num_cols then
    match tape with
    | [] => (None, inl EOFError)
    | c :: rest =>
        if 64 <? c then (Some rest, inl RuntimeError)
        else if c =? 0 then do_rt_loop rest num_cols sgn val
        else
          let c := if c =? 64 then 0 else c in
          match sgn with
          | None => do_rt_loop rest num_cols (Some (if c =? 0 then 0 else 16777216)) val
          | Some _ => do_rt_loop rest (num_cols - 1) sgn (val * 64 + c)
          end
    end
  else (Some tape, inr (default 0 sgn + val)).

(** [_do_rt] *)
Definition do_rt : M Z :=
  fun s =>
    match s.(ptr) with
    | None => (s, inl AttributeError)
    | Some t => let '(p, r) := do_rt_loop t 4 None 0 in (set_ptr s p, r)
    end.

(** The [for idx in range(n)] loop of [_inst_rt]; [false] is [break]. *)
Fixpoint rt_loop (n : nat) : M unit :=
  match n with
  | O => ret tt
  | S n' =>
      let* go := try_except
                   (let* s := get in
                    let* w := do_rt in
                    let* _ := wm s.(addr) w in
                    let* _ := next_addr in
                    ret true)
                   (fun e => match e with
                             | EOFError => ret false
                             | RuntimeError => let* _ := clear_run in ret false
                             | e => raise e
                             end) in
      if go then rt_loop n' else ret tt
  end.

(** [_inst_rt] *)
Definition inst_rt : M string :=
  let* s := get in
  match s.(ptr) with
  | Some _ =>
      let* _ := rt_loop (Z.to_nat (64 - s.(count))) in
      let* s := get in
      ret ("next addr:     " +:+ fmt_oct 4 s.(addr))
  | None =>
      let* _ := clear_run in
      ret "No Tape in PTReader"
  end.

(** ** Keyboard *)

(** [_tichars]: (code point, Digiac code). *)
Definition tichars : list (Z * Z) :=
  [(48,0); (49,1); (50,2); (51,3); (52,4); (53,5); (54,6); (55,7);
   (56,8); (57,9); (45,10); (59,11); (47,12); (33,13); (39,14); (61,15);
   (32,16); (65,17); (66,18); (67,19); (68,20); (69,21); (70,22); (71,23);
   (72,24); (73,25); (74,26); (75,27); (76,28); (77,29); (44,30); (10,31);
   (9,32); (78,33); (79,34); (80,35); (81,36); (82,37); (83,38); (84,39);
   (85,40); (86,41); (87,42); (88,43); (89,44); (90,45); (46,46); (0,47);
   (41,48); (177,49); (64,50); (35,51); (36,52); (37,53); (162,54); (38,55);
   (42,56); (40,57); (95,58); (58,59); (63,60); (176,61); (34,62); (43,63)].

Fixpoint assoc (k : Z) (l : list (Z * Z)) : option Z :=
  match l with
  | [] => None
  | (k', v) :: l' => if k =? k' then Some v else assoc k l'
  end.

(** The [while True] loop of [_ti_char] over the keys still to be typed. *)
Fixpoint ti_char_loop (keys : list Z) : list Z * (exn + Z) :=
  match keys with
  | [] => ([], inl Blocked)
  | c :: rest =>
      if c =? 3 then (rest, inl KeyboardInterrupt)
      else match assoc c tichars with
           | Some code => (rest, inr code)
           | None => ti_char_loop rest
           end
  end.

(** [_ti_char]: the keys still to be typed are [kbd]. The echo
    [print(c)] of an accepted key and the bell printed for a rejected one
    go to the console and are not recorded: [tty] holds only the words TA
    prints, so no theorem here speaks about the echo. *)
Definition ti_char : M Z :=
  fun s => let '(k, r) := ti_char_loop s.(kbd) in (set_kbd s k, r).

(** The [for idx in range(n)] loop of [_inst_ti]. *)
Fixpoint ti_loop (n : nat) (idx wd : Z) : M unit :=
  match n with
  | O => ret tt
  | S n' =>
      let* c := ti_char in
      let wd := Z.lor (Z.shiftl wd 6) c in
      if idx mod 4 =? 3 then
        let* s := get in
        let* _ := wm s.(addr) wd in
        let* _ := next_addr in
        ti_loop n' (idx + 1) 0
      else ti_loop n' (idx + 1) wd
  end.

(** [_inst_ti] *)
Definition inst_ti : M string :=
  let* s := get in
  let* _ := ti_loop (Z.to_nat ((64 - s.(count)) * 4)) 0 0 in
  let* s := get in
  ret ("next addr:     " +:+ fmt_oct 4 s.(addr)).

(** ** Dispatch and the instruction cycle *)

Inductive handler :=
| HLT | AND | CLA | ADD | MLT | DIV | STA | STB
| JMP | BRM | BRP | BRZ | TA | RT | TI.

Definition run_handler (h : handler) : M string :=
  match h with
  | HLT => inst_hlt | AND => inst_and | CLA => inst_cla | ADD => inst_add
  | MLT => inst_mlt | DIV => inst_div | STA => inst_sta | STB => inst_stb
  | JMP => inst_jmp | BRM => inst_br_minus | BRP => inst_br_plus
  | BRZ => inst_brz | TA => inst_ta | RT => inst_rt | TI => inst_ti
  end.

(** [_implemented_instructions] (keys in decimal). *)
Definition implemented_instructions : list (Z * handler) :=
  [(0, HLT);
   (4, AND); (5, AND); (6, AND); (7, AND);
   (8, CLA); (9, CLA); (10, CLA); (11, CLA);
   (12, ADD); (13, ADD); (14, ADD); (15, ADD);
   (16, MLT); (17, MLT); (18, MLT); (19, MLT);
   (20, DIV); (21, DIV); (22, DIV); (23, DIV);
   (24, STA); (25, STA); (26, STA); (27, STA);
   (28, STB); (29, STB); (30, STB); (31, STB);
   (36, JMP); (37, BRM); (38, BRP); (39, BRZ);
   (44, TA); (48, RT); (51, TI)].

Definition lookup_handler (op : Z) : option handler :=
  match List.find (fun p => fst p =? op) implemented_instructions with
  | Some (_, h) => Some h
  | None => None
  end.

(** [exec] *)
Definition exec : M string :=
  let* s := get in
  let pc0 := s.(pc) in
  if z_in pc0 s.(bpt) then
    let* _ := clear_run in
    ret ("Breakpoint at " +:+ fmt_oct 4 pc0)
  else
    let* instr := rm pc0 in
    let* _ := modify (fun s => set_pc s ((s.(pc) + 1) mod 4096)) in
    let* _ := modify (fun s => set_icount s (s.(instruction_count) + 1)) in
    let* _ := modify (fun s => set_decode s (Z.land (Z.shiftr instr 18) 63)
                                             (Z.land (Z.shiftr instr 12) 63)
                                             (Z.land instr 4095)) in
    let* s := get in
    match lookup_handler s.(opcode) with
    | None =>
        let* _ := clear_run in
        ret ("Invalid or Unknown OPCODE " +:+ fmt_oct 8 instr +:+ " at " +:+ fmt_oct 4 pc0)
    | Some h => run_handler h
    end.

(** ** Observations used by the statements *)

(** The word at [ad], as [self.mem[ad]] reads it. *)
Definition rd (s : cpu) (ad : Z) : Z := default 0 (s.(mem) !! Z.to_nat ad).

(** The (sign, magnitude) pair [_arg_fetch] returns in state [s]. *)
Definition fetched_arg (s : cpu) : Z * Z :=
  (sign s.(opcode) (Z.land (rd s s.(addr)) SIGNMASK),
   shift s.(count) (Z.land (rd s s.(addr)) MASK24)).

(** A sign-magnitude register read as a signed integer. *)
Definition signed (r : Z * Z) : Z := if fst r =? 0 then snd r else - snd r.

(** The state after the fetch, PC increment, counter increment and decode
    of [exec], when no breakpoint is set at the PC. *)
Definition fetch_decode (s : cpu) : cpu :=
  let instr := rd s s.(pc) in
  let s1 := if z_in s.(pc) s.(acs) then set_run s false else s in
  set_decode (set_icount (set_pc s1 ((s.(pc) + 1) mod 4096)) (s.(instruction_count) + 1))
             (Z.land (Z.shiftr instr 18) 63) (Z.land (Z.shiftr instr 12) 63)
             (Z.land instr 4095).

(** ** Invariants and reachability *)

(** A memory word in its 32-bit container: bits 31..25 clear and sign bit
    (bit 24) 0 or 1; the magnitude is the low 24 bits. *)
Definition word_ok (w : Z) : Prop :=
  0 <= w /\ (Z.shiftr w 24 = 0 \/ Z.shiftr w 24 = 1).

(** A register (sign, magnitude). *)
Definition reg_ok (r : Z * Z) : Prop :=
  (fst r = 0 \/ fst r = 1) /\ 0 <= snd r < 2 ^ 24.

Definition wf (s : cpu) : Prop :=
  0 <= s.(pc) < 4096 /\ reg_ok s.(a) /\ reg_ok s.(b) /\ Forall word_ok s.(mem).

(** A tape byte, as [ptr.read(1)[0]] returns it. *)
Definition is_byte (c : Z) : Prop := 0 <= c <= 255.

(** The attached tape, if any, holds bytes. *)
Definition tape_bytes (s : cpu) : Prop :=
  match s.(ptr) with Some t => Forall is_byte t | None => True end.

(** The state built by [__init__]: PC 0, A and B positive zero, memory
    words [sgn << 24 + val] with random [sgn < 2] and [val < 2^24]. The
    other fields (breakpoints, stops, ...) are left to the supervisor; an
    attached tape is a byte stream. *)
Definition initial (s : cpu) : Prop :=
  s.(pc) = 0 /\ s.(a) = (0, 0) /\ s.(b) = (0, 0) /\
  Forall (fun w => 0 <= w < 2 ^ 25) s.(mem) /\ tape_bytes s.

(** States reached by [exec] steps from an initial state; between steps
    the supervisor may attach a tape file or detach it (ATTACH, DETACH). *)
Inductive reachable : cpu -> Prop :=
| reach_init s : initial s -> reachable s
| reach_exec s : reachable s -> reachable (fst (exec s))
| reach_tape s p :
    reachable s -> match p with Some t => Forall is_byte t | None => True end ->
    reachable (set_ptr s p).

(** [t'] is the tape [t] with 0x00 bytes inserted at arbitrary places. *)
Inductive zeros_inserted : list Z -> list Z -> Prop :=
| zi_nil : zeros_inserted [] []
| zi_keep c t t' : zeros_inserted t t' -> zeros_inserted (c :: t) (c :: t')
| zi_zero t t' : zeros_inserted t t' -> zeros_inserted t (0 :: t').

(** [pad_zeros ks t] inserts [k_i] 0x00 bytes before the [i]-th byte of
    [t], and the last [k] after its end: every way of inserting 0x00
    bytes into [t]. *)
Fixpoint pad_zeros (ks : list nat) (t : list Z) : list Z :=
  match ks, t with
  | k :: ks', c :: t' => List.repeat 0 k ++ c :: pad_zeros ks' t'
  | k :: _, [] => List.repeat 0 k
  | [], t => t
  end.

(** Tape positions that agree up to inserted 0x00 bytes. *)
Definition ptr_rel (p p' : option (list Z)) : Prop :=
  match p, p' with
  | None, None => True
  | Some r, Some r' => zeros_inserted r r'
  | _, _ => False
  end.

(** Partial-correctness triples for [M]: [I] is kept by [m] whatever its
    outcome, and a returned value satisfies [Q]. *)
Definition hoare {A} (I : cpu -> Prop) (m : M A) (Q : A -> Prop) : Prop :=
  forall s, I s -> I (fst (m s)) /\ forall x, snd (m s) = inr x -> Q x.

(** A tape byte RT accepts: blank (0x00), a digit 0x01-0x3F, or 0x40. *)
Definition tape_ok (c : Z) : Prop := 0 <= c <= 64.

(** Number of non-blank bytes on a tape. *)
Definition nz (t : list Z) : nat := length (List.filter (fun c => negb (c =? 0)) t).

(** What holds inside a handler: [wf], the decoded address in range and
    the tape made of bytes. *)
Definition inv (s : cpu) : Prop :=
  wf s /\ 0 <= s.(addr) < 4096 /\ tape_bytes s.



(** ** Character tables *)

(** The string of [_ta_char] (digiac.py), as its code points: TA prints
    [ta_char c] for a code [c]. *)
Definition ta_char_table : list Z :=
  [48; 49; 50; 51; 52; 53; 54; 55; 56; 57; 45; 59; 47; 33; 39; 61;
   32; 65; 66; 67; 68; 69; 70; 71; 72; 73; 74; 75; 76; 77; 44; 10;
   9; 78; 79; 80; 81; 82; 83; 84; 85; 86; 87; 88; 89; 90; 46; 0;
   41; 177; 64; 35; 36; 37; 32; 38; 42; 40; 95; 58; 63; 176; 34; 43].

(** [_ta_char(c)]; [c] is a 6-bit code, so the index is in range. *)
Definition ta_char (c : Z) : Z := nth (Z.to_nat c) ta_char_table 0.

(** The string [abc] of [_chars] (sim3080.py), the same as [albet] of
    tape_dump.py, as its code points. *)
Definition abc_table : list Z :=
  [48; 49; 50; 51; 52; 53; 54; 55; 56; 57; 45; 59; 47; 33; 39; 61;
   32; 65; 66; 67; 68; 69; 70; 71; 72; 73; 74; 75; 76; 77; 44; 46;
   46; 78; 79; 80; 81; 82; 83; 84; 85; 86; 87; 88; 89; 90; 46; 46;
   41; 177; 64; 35; 36; 37; 162; 38; 42; 40; 95; 58; 63; 176; 34; 43].

(** The [while len(result) < 4] loop of [_chars]; [n] is
    [4 - len(result)]. *)
Fixpoint chars_loop (n : nat) (word : Z) (result : list Z) : list Z :=
  match n with
  | O => result
  | S n' =>
      chars_loop n' (Z.shiftl word 6)
        (result ++ [nth (Z.to_nat (Z.land (Z.shiftr word 18) 63)) abc_table 0])
  end.

(** [_chars(word)] of sim3080.py. *)
Definition chars (word : Z) : list Z := chars_loop 4 word [].

(** ** Helpers for the statements about TA, TI and RT *)

(** The four 6-bit fields of the low 24 bits of [w], high to low. *)
Definition word_codes (w : Z) : list Z :=
  [Z.land (Z.shiftr w 18) 63; Z.land (Z.shiftr w 12) 63;
   Z.land (Z.shiftr w 6) 63; Z.land w 63].

(** The words [ws] written at [ad], [ad + 1], ... (addresses wrapping at
    4096). *)
Fixpoint write_words (ad : Z) (ws : list Z) (m : list Z) : list Z :=
  match ws with
  | [] => m
  | w :: ws' => write_words ((ad + 1) mod 4096) ws' (<[Z.to_nat ad := w]> m)
  end.

(** The [n] words from [ad] on (addresses wrapping at 4096). *)
Fixpoint read_words (m : list Z) (ad : Z) (n : nat) : list Z :=
  match n with
  | O => []
  | S n' => default 0 (m !! Z.to_nat ad) :: read_words m ((ad + 1) mod 4096) n'
  end.

(** The Digiac code of a key, and the keys [_ti_char] accepts. *)
Definition ti_code (k : Z) : Z := default 0 (assoc k tichars).
Definition ti_key (k : Z) : Prop := assoc k tichars <> None.

(** Codes packed four to a word, first code in the high bits; an
    incomplete last group gives no word. *)
Fixpoint pack_words (cs : list Z) : list Z :=
  match cs with
  | c1 :: c2 :: c3 :: c4 :: cs' => (((c1 * 64 + c2) * 64 + c3) * 64 + c4) :: pack_words cs'
  | _ => []
  end.

(** [ks'] is [ks] with keys inserted that [_ti_char] rejects with a bell
    (not Control-C and without a Digiac code). *)
Inductive junk_inserted : list Z -> list Z -> Prop :=
| ji_nil : junk_inserted [] []
| ji_keep k ks ks' : junk_inserted ks ks' -> junk_inserted (k :: ks) (k :: ks')
| ji_junk k ks ks' :
    k <> 3 -> assoc k tichars = None -> junk_inserted ks ks' -> junk_inserted ks (k :: ks').

(** ** Supervisor (sim3080.py) *)

Definition set_bpt s l := mkCpu s.(mem) s.(pc) s.(a) s.(b) s.(instruction_count) s.(ptr) l s.(acs) s.(run) s.(opcode) s.(count) s.(addr) s.(kbd) s.(tty).
Definition set_acs s l := mkCpu s.(mem) s.(pc) s.(a) s.(b) s.(instruction_count) s.(ptr) s.(bpt) l s.(run) s.(opcode) s.(count) s.(addr) s.(kbd) s.(tty).

(** Python's [list.remove(x)] when [x] is in the list: the first
    occurrence goes. *)
Fixpoint list_remove (x : Z) (l : list Z) : list Z :=
  match l with
  | [] => []
  | y :: l' => if x =? y then l' else y :: list_remove x l'
  end.

(** [str.lower()] on ASCII letters. *)
Fixpoint lower (s : string) : string :=
  match s with
  | EmptyString => EmptyString
  | String c s' =>
      let n := nat_of_ascii c in
      String (if (65 <=? n)%nat && (n <=? 90)%nat then ascii_of_nat (n + 32) else c) (lower s')
  end.

(** The commands take [arg.split()] as the list [args]; [int8] is
    Python's [int(x, 8)], [None] when it raises. *)
Section Commands.
Variable int8 : string -> option Z.

(** The [try: addr = int(x, 8); assert 0 <= addr <= 0o7777] of the
    commands. *)
Definition parse_addr (x : string) : option Z :=
  match int8 x with
  | Some ad => if (0 <=? ad) && (ad <=? 4095) then Some ad else None
  | None => None
  end.

(** [do_break]; the listing branch (no argument) changes nothing. *)
Definition do_break (args : list string) (s : cpu) : cpu :=
  match args with
  | x :: _ =>
      match parse_addr x with
      | Some ad => if negb (z_in ad s.(bpt)) then set_bpt s (s.(bpt) ++ [ad]) else s
      | None => s
      end
  | [] => s
  end.

(** [do_clear] *)
Definition do_clear (args : list string) (s : cpu) : cpu :=
  match args with
  | [x] =>
      match parse_addr x with
      | Some ad => if z_in ad s.(bpt) then set_bpt s (list_remove ad s.(bpt)) else s
      | None => s
      end
  | _ => s
  end.

(** [do_acstop] *)
Definition do_acstop (args : list string) (s : cpu) : cpu :=
  match args with
  | x :: _ =>
      match parse_addr x with
      | Some ad => if negb (z_in ad s.(acs)) then set_acs s (s.(acs) ++ [ad]) else s
      | None => s
      end
  | [] => s
  end.

(** [do_aclear] *)
Definition do_aclear (args : list string) (s : cpu) : cpu :=
  match args with
  | [x] =>
      match parse_addr x with
      | Some ad => if z_in ad s.(acs) then set_acs s (list_remove ad s.(acs)) else s
      | None => s
      end
  | _ => s
  end.

(** The [try] block of [do_deposit]: [(sgn, val)], or [None] for
    "invalid data value". *)
Definition deposit_value (x0 x1 : string) : option (Z * Z) :=
  let sgn := if String.prefix "-" x1 then 1 else 0 in
  match int8 x1 with
  | None => None
  | Some val =>
      if negb ((- 16777216 <? val) && (val <? 16777216)) then None
      else if String.eqb x0 "pc" then
        if negb ((0 <=? val) && (val <=? 4095)) then None
        else if negb (sgn =? 0) then None
        else Some (sgn, val)
      else if val <? 0 then Some (1, Z.land (Z.lnot val + 1) MASK24)
      else Some (sgn, val)
  end.

(** [do_deposit] *)
Definition do_deposit (args : list string) (s : cpu) : cpu :=
  match args with
  | [x0; x1] =>
      match deposit_value x0 x1 with
      | None => s
      | Some (sgn, val) =>
          let adr := lower x0 in
          if String.eqb adr "a" then set_a s (sgn, val)
          else if String.eqb adr "b" then set_b s (sgn, val)
          else if String.eqb adr "pc" then set_pc s val
          else match parse_addr x0 with
               | Some ad => fst (wm ad (Z.lor (Z.shiftl sgn 24) val) s)
               | None => s
               end
      end
  | _ => s
  end.
End Commands.

(** The memory branch of [do_examine] for the address [ad]: the value
    string and the characters it prints. *)
Definition examine_word (ad : Z) : M (string * list Z) :=
  let* wd := rm ad in
  ret (reg_str (Z.land wd SIGNMASK) (Z.land wd MASK24), chars wd).

(** The [while d.run] loop of [run_virtual_machine]. [held] is
    [held_bpt]; the result is the state and the [result] printed last, or
    the exception that escapes; [None] when [fuel] runs out. *)
Fixpoint rvm_loop (fuel : nat) (num_instr : option Z) (instr_cnt : Z)
    (held : option Z) (result : string) (s : cpu) : option (cpu * (exn + string)) :=
  if s.(run) then
    match fuel with
    | O => None
    | S f =>
        let '(s, _) := rm s.(pc) s in
        let '(s, r) := exec s in
        let '(s, out, instr_cnt) :=
          match r with
          | inr res => (s, inr res, instr_cnt + 1)
          | inl KeyboardInterrupt => (set_run s false, inr "Control-C", instr_cnt)
          | inl e => (s, inl e, instr_cnt)
          end in
        match out with
        | inl e => Some (s, inl e)
        | inr result =>
            let s := match held with
                     | Some h => set_bpt s (s.(bpt) ++ [h])
                     | None => s
                     end in
            let s := match num_instr with
                     | Some n => if n <=? instr_cnt then set_run s false else s
                     | None => s
                     end in
            rvm_loop f num_instr instr_cnt None result s
        end
    end
  else Some (s, inr result).

(** [run_virtual_machine(num_instr)]: a breakpoint at the PC is held off
    the list for the first instruction. *)
Definition run_virtual_machine (fuel : nat) (num_instr : option Z) (s : cpu)
    : option (cpu * (exn + string)) :=
  let s := set_run s true in
  if z_in s.(pc) s.(bpt)
  then rvm_loop fuel num_instr 0 (Some s.(pc)) "" (set_bpt s (list_remove s.(pc) s.(bpt)))
  else rvm_loop fuel num_instr 0 None "" s.

(** ** tape_dump.py *)

(** The lines tape_dump prints for a file: "removed l leading zero bytes"
    and the table header, a word ". addr wd c1c2c3c4" (the characters
    follow from [wd]), "removed final l zero bytes". *)
Inductive dump_event :=
| DumpHeader (removed : Z)
| DumpWord (addr wd : Z)
| DumpFinal (removed : Z).

Inductive dump_err := AssertionError | IndexError.

(** [buf.lstrip(b"\x00")] *)
Fixpoint lstrip0 (buf : list Z) : list Z :=
  match buf with
  | c :: buf' => if c =? 0 then lstrip0 buf' else buf
  | [] => []
  end.

(** The inner [while buf[0] != 0] loop: [inl buf] is the rest when the
    loop ends, [inr e] the exception it raises. *)
Fixpoint dump_block (ad : Z) (buf : list Z) : list dump_event * (list Z + dump_err) :=
  match buf with
  | [] => ([], inr IndexError)
  | c :: rest =>
      if c =? 0 then ([], inl buf)
      else if negb (c =? 64) then ([], inr AssertionError)
      else
        match rest with
        | [] => ([], inr IndexError)
        | b1 :: r1 =>
            if b1 =? 0 then ([], inr AssertionError) else
            match r1 with
            | [] => ([], inr IndexError)
            | b2 :: r2 =>
                if b2 =? 0 then ([], inr AssertionError) else
                match r2 with
                | [] => ([], inr IndexError)
                | b3 :: r3 =>
                    if b3 =? 0 then ([], inr AssertionError) else
                    match r3 with
                    | [] => ([], inr IndexError)
                    | b4 :: r4 =>
                        if b4 =? 0 then ([], inr AssertionError) else
                        let wd := (((b1 mod 64) * 64 + b2 mod 64) * 64 + b3 mod 64) * 64
                                  + b4 mod 64 in
                        let '(evs, r) := dump_block (ad + 1) r4 in
                        (DumpWord ad wd :: evs, r)
                    end
                end
            end
        end
  end.

(** The outer [while buf] loop; [ln] is the variable [ln]. [None] when
    [fuel] runs out. *)
Fixpoint dump_loop (fuel : nat) (ln : Z) (buf : list Z)
    : option (list dump_event * option dump_err) :=
  match buf with
  | [] => Some ([], None)
  | _ :: _ =>
      match fuel with
      | O => None
      | S f =>
          let buf := lstrip0 buf in
          let l := ln - Z.of_nat (length buf) in
          match buf with
          | [] => Some ([DumpFinal l], None)
          | _ :: _ =>
              let '(evs, r) := dump_block 0 buf in
              match r with
              | inr e => Some (DumpHeader l :: evs, Some e)
              | inl rest =>
                  match dump_loop f (Z.of_nat (length rest)) rest with
                  | Some (evs', e) => Some (DumpHeader l :: evs ++ evs', e)
                  | None => None
                  end
              end
          end
      end
  end.

(** tape_dump.py on one file with contents [buf]: the lines it prints
    after the raw data length, and the exception that stops it, if any. *)
Definition tape_dump (buf : list Z) : option (list dump_event * option dump_err) :=
  dump_loop (S (length buf)) (Z.of_nat (length buf)) buf.

(** The words listed in tape_dump's output. *)
Fixpoint dump_words (evs : list dump_event) : list Z :=
  match evs with
  | [] => []
  | DumpWord _ wd :: evs' => wd :: dump_words evs'
  | _ :: evs' => dump_words evs'
  end.

(** The state after one pass of the [while] body of
    [run_virtual_machine], before the next test of [d.run]. *)
Definition rvm_post (num_instr : option Z) (held : option Z) (c : Z) (t : cpu) : cpu :=
  let t := match held with Some h => set_bpt t (t.(bpt) ++ [h]) | None => t end in
  match num_instr with
  | Some n => if n <=? c then set_run t false else t
  | None => t
  end.

(** ** Example states *)

Definition mem_zero : list Z := List.repeat 0 4096.

(** The state of [__init__] with an all-zero memory. *)
Definition example_cpu : cpu :=
  mkCpu mem_zero 0 (0, 0) (0, 0) 0 None [] [] true 0 0 0 [] [].

(** ** General lemmas *)

Lemma arg_fetch_eq (s : cpu) :
  arg_fetch s = (if z_in s.(addr) s.(acs) then set_run s false else s, inr (fetched_arg s)).
Proof. reflexivity. Qed.

Lemma exec_breakpoint_eq (s : cpu) :
  z_in s.(pc) s.(bpt) = true ->
  exec s = (set_run s false, inr ("Breakpoint at " +:+ fmt_oct 4 s.(pc))).
Proof. intros H. unfold exec, bind, get. cbn. rewrite H. reflexivity. Qed.

Lemma exec_dispatch_eq (s : cpu) :
  z_in s.(pc) s.(bpt) = false ->
  exec s = match lookup_handler (fetch_decode s).(opcode) with
           | None => (set_run (fetch_decode s) false,
                      inr ("Invalid or Unknown OPCODE " +:+ fmt_oct 8 (rd s s.(pc))
                           +:+ " at " +:+ fmt_oct 4 s.(pc)))
           | Some h => run_handler h (fetch_decode s)
           end.
Proof.
  intros H. unfold exec, bind, get. cbn. rewrite H.
  unfold fetch_decode, rd.
  destruct (z_in (pc s) (acs s)); cbn;
    destruct (lookup_handler _); reflexivity.
Qed.

Lemma MASK24_ones : MASK24 = Z.ones 24.
Proof. reflexivity. Qed.

Lemma land_MASK24 (x : Z) : Z.land x MASK24 = x mod 2 ^ 24.
Proof. rewrite MASK24_ones. apply Z.land_ones. lia. Qed.

Lemma land_4095 (x : Z) : Z.land x 4095 = x mod 4096.
Proof. change 4095 with (Z.ones 12). rewrite Z.land_ones by lia. reflexivity. Qed.

Lemma land32_testbit (c : Z) : (Z.land c 32 =? 0) = negb (Z.testbit c 5).
Proof.
  destruct (Z.testbit c 5) eqn:E; cbn.
  - apply Z.eqb_neq. intros H0.
    assert (Z.testbit (Z.land c 32) 5 = true) as T.
    { rewrite Z.land_spec, E. reflexivity. }
    rewrite H0 in T. discriminate.
  - apply Z.eqb_eq. apply Z.bits_inj'. intros n Hn.
    rewrite Z.land_spec, Z.bits_0.
    change 32 with (2 ^ 5). rewrite Z.pow2_bits_eqb by lia.
    destruct (Z.eqb_spec 5 n); [subst; rewrite E; reflexivity|apply andb_false_r].
Qed.

Lemma hoare_ret {A} (I : cpu -> Prop) (Q : A -> Prop) (x : A) :
  Q x -> hoare I (ret x) Q.
Proof. intros HQ s HI. split; [exact HI|]. intros y Hy. injection Hy as <-. exact HQ. Qed.

Lemma hoare_raise {A} (I : cpu -> Prop) (Q : A -> Prop) (e : exn) :
  hoare I (raise e) Q.
Proof. intros s HI. split; [exact HI|]. discriminate. Qed.

Lemma hoare_get (I : cpu -> Prop) : hoare I get I.
Proof. intros s HI. split; [exact HI|]. intros y Hy. injection Hy as <-. exact HI. Qed.

Lemma hoare_modify (I : cpu -> Prop) (f : cpu -> cpu) :
  (forall s, I s -> I (f s)) -> hoare I (modify f) (fun _ => True).
Proof. intros Hf s HI. split; [apply Hf, HI|]. auto. Qed.

Lemma hoare_bind {A B} (I : cpu -> Prop) (m : M A) (f : A -> M B) Q R :
  hoare I m Q -> (forall x, Q x -> hoare I (f x) R) -> hoare I (bind m f) R.
Proof.
  intros Hm Hf s HI. unfold bind.
  destruct (Hm s HI) as [HI' HQ].
  destruct (m s) as [s' [e|x]]; cbn in *.
  - split; [exact HI'|discriminate].
  - exact (Hf x (HQ x eq_refl) s' HI').
Qed.

Lemma hoare_try {A} (I : cpu -> Prop) (m : M A) (h : exn -> M A) Q :
  hoare I m Q -> (forall e, hoare I (h e) Q) -> hoare I (try_except m h) Q.
Proof.
  intros Hm Hh s HI. unfold try_except.
  destruct (Hm s HI) as [HI' HQ].
  destruct (m s) as [s' [e|x]]; cbn in *.
  - exact (Hh e s' HI').
  - split; [exact HI'|exact HQ].
Qed.

Lemma hoare_weaken {A} (I : cpu -> Prop) (m : M A) (Q Q' : A -> Prop) :
  hoare I m Q -> (forall x, Q x -> Q' x) -> hoare I m Q'.
Proof.
  intros Hm HQ s HI. destruct (Hm s HI) as [HI' HQ1]. split; [exact HI'|].
  intros x Hx. apply HQ, HQ1, Hx.
Qed.

Lemma hoare_true {A} (I : cpu -> Prop) (m : M A) (Q : A -> Prop) :
  hoare I m Q -> hoare I m (fun _ => True).
Proof. intros H. eapply hoare_weaken; [exact H|auto]. Qed.

(** *** Handlers that leave a field alone *)

(** A property [I] of the state that only depends on fields no handler
    writes: every handler keeps it. *)
Section Frame.
Variable I : cpu -> Prop.
Hypothesis I_run : forall s r, I s -> I (set_run s r).
Hypothesis I_mem : forall s m, I s -> I (set_mem s m).
Hypothesis I_a : forall s r, I s -> I (set_a s r).
Hypothesis I_b : forall s r, I s -> I (set_b s r).
Hypothesis I_pc : forall s p, I s -> I (set_pc s p).
Hypothesis I_addr : forall s ad, I s -> I (set_addr s ad).
Hypothesis I_ptr : forall s p, I s -> I (set_ptr s p).
Hypothesis I_kbd : forall s k, I s -> I (set_kbd s k).
Hypothesis I_tty : forall s t, I s -> I (set_tty s t).

Lemma frame_rm ad : hoare I (rm ad) (fun _ => True).
Proof.
  intros s HI. unfold rm. split; [|auto]. cbn.
  destruct (z_in ad (acs s)); auto.
Qed.

Lemma frame_wm ad v : hoare I (wm ad v) (fun _ => True).
Proof.
  intros s HI. unfold wm. split; [|auto]. cbn.
  destruct (z_in ad (acs s)); auto.
Qed.

Lemma frame_do_rt : hoare I do_rt (fun _ => True).
Proof.
  intros s HI. unfold do_rt. split; [|auto].
  destruct (ptr s); [|exact HI].
  destruct (do_rt_loop _ _ _ _). cbn. auto.
Qed.

Lemma frame_ti_char : hoare I ti_char (fun _ => True).
Proof.
  intros s HI. unfold ti_char. split; [|auto].
  destruct (ti_char_loop _). cbn. auto.
Qed.

Ltac frame_auto :=
  repeat match goal with
    | |- hoare _ (bind _ _) _ =>
        apply (hoare_bind _ _ _ (fun _ => True)); [|intros ? ?]
    | |- hoare _ get _ => eapply hoare_true; apply hoare_get
    | |- hoare _ (rm _) _ => apply frame_rm
    | |- hoare _ (wm _ _) _ => apply frame_wm
    | |- hoare _ do_rt _ => apply frame_do_rt
    | |- hoare _ ti_char _ => apply frame_ti_char
    | |- hoare _ (modify _) _ => apply hoare_modify; intros; auto
    | |- hoare _ next_addr _ => apply hoare_modify; intros; auto
    | |- hoare _ clear_run _ => apply hoare_modify; intros; auto
    | |- hoare _ inst_jmp _ => unfold inst_jmp
    | |- hoare _ (try_except _ _) _ => apply hoare_try; [|intros []]
    | |- hoare _ (ret _) _ => apply hoare_ret; auto
    | |- hoare _ (raise _) _ => apply hoare_raise
    | |- hoare _ (let '(_, _) := ?p in _) _ => destruct p
    | |- hoare _ (if ?c then _ else _) _ => destruct c
    | |- hoare _ (match ?x with _ => _ end) _ => destruct x
    end.

Lemma frame_ta_loop n idx wd buf : hoare I (ta_loop n idx wd buf) (fun _ => True).
Proof.
  revert idx wd buf. induction n as [|n IH]; intros idx wd buf; cbn.
  - apply hoare_ret; auto.
  - apply (hoare_bind _ _ _ (fun _ => True)); [|intros; apply IH].
    frame_auto.
Qed.

Lemma frame_rt_loop n : hoare I (rt_loop n) (fun _ => True).
Proof.
  induction n as [|n IH]; cbn.
  - apply hoare_ret; auto.
  - apply (hoare_bind _ _ _ (fun _ => True)); [frame_auto|].
    intros [] _; [apply IH|apply hoare_ret; auto].
Qed.

Lemma frame_ti_loop n idx wd : hoare I (ti_loop n idx wd) (fun _ => True).
Proof.
  revert idx wd. induction n as [|n IH]; intros idx wd; cbn.
  - apply hoare_ret; auto.
  - frame_auto; apply IH.
Qed.

Lemma frame_handler h : hoare I (run_handler h) (fun _ => True).
Proof.
  destruct h; cbn;
    unfold inst_hlt, inst_and, inst_cla, inst_add, inst_mlt, inst_div,
      inst_sta, inst_stb, store_reg, inst_jmp, inst_br_minus, inst_br_plus,
      inst_brz, inst_ta, inst_rt, inst_ti, arg_fetch, clear_run, next_addr,
      py_floordiv, py_mod;
    frame_auto;
    first [ apply frame_ta_loop | apply frame_rt_loop | apply frame_ti_loop ].
Qed.
End Frame.

Lemma store_reg_mem (s : cpu) (ad : Z) (reg : Z * Z) :
  (fst (store_reg ad reg s)).(mem) =
  <[Z.to_nat ad := Z.shiftl (sign s.(opcode) (fst reg)) 24 + shift s.(count) (snd reg)]> s.(mem).
Proof.
  unfold store_reg, bind, get, wm. cbn.
  destruct (z_in ad (acs s)); reflexivity.
Qed.

Lemma inst_cla_a (s : cpu) : (fst (inst_cla s)).(a) = fetched_arg s.
Proof.
  unfold inst_cla, bind. rewrite arg_fetch_eq. cbn -[fetched_arg].
  destruct (fetched_arg s). reflexivity.
Qed.

Lemma inst_and_a (s : cpu) :
  (fst (inst_and s)).(a) =
  (if fst (fetched_arg s) =? 0 then 0 else fst s.(a),
   Z.land (snd (fetched_arg s)) (snd s.(a))).
Proof.
  unfold inst_and, bind, get. rewrite arg_fetch_eq. cbn -[fetched_arg].
  destruct (fetched_arg s).
  destruct (z_in (addr s) (acs s)); reflexivity.
Qed.

Lemma sign_forced (op x : Z) :
  (Z.land op 3 = 2 -> sign op x = 0) /\ (Z.land op 3 = 3 -> sign op x = 1).
Proof. unfold sign. split; intros ->; reflexivity. Qed.

(** ** Modifier unit: shift (C1) *)

(** C1: the 6-bit count shifts the 24-bit magnitude right by [64 - count]
    when bit 5 of count is set and left by [count] otherwise, the result
    masked to 24 bits; with count 0 the magnitude is unchanged. This is the
    magnitude [_arg_fetch] returns and the magnitude [_store_reg] writes. *)
Theorem shift_modifier_spec (cnt val : Z) (Hv : 0 <= val < 2 ^ 24) :
  shift cnt val =
    (if Z.testbit cnt 5 then Z.shiftr val (64 - cnt) else Z.shiftl val cnt) mod 2 ^ 24 /\
  (cnt = 0 -> shift cnt val = val) /\
  (forall s, snd (arg_fetch s) =
     inr (sign s.(opcode) (Z.land (rd s s.(addr)) SIGNMASK),
          shift s.(count) (Z.land (rd s s.(addr)) MASK24))) /\
  (forall s ad reg, (fst (store_reg ad reg s)).(mem) =
     <[Z.to_nat ad := Z.shiftl (sign s.(opcode) (fst reg)) 24 + shift s.(count) (snd reg)]> s.(mem)).
Proof.
  split; [|split; [|split]].
  - unfold shift. rewrite land32_testbit, land_MASK24.
    destruct (Z.testbit cnt 5); reflexivity.
  - intros ->. unfold shift. cbn. rewrite Z.shiftl_0_r, land_MASK24.
    apply Z.mod_small; exact Hv.
  - intros s. reflexivity.
  - intros s ad reg. apply store_reg_mem.
Qed.

Lemma shift_modifier_spec_witness :
  0 <= 5 < 2 ^ 24 /\ shift 0 5 = 5 /\ shift 3 5 = 40 /\ shift 61 40 = 5.
Proof.
  split; [lia|].
  destruct (shift_modifier_spec 0 5 ltac:(lia)) as [_ [H0 _]].
  split; [apply H0; reflexivity|].
  split; vm_compute; reflexivity.
Defined.

(** ** Sign-magnitude addition (C2) *)

(** C2: ADD/SUB sets A to the sign-magnitude form of the signed sum of
    the prior A and the modified argument: sign 1 iff the sum is negative,
    magnitude [|sum|] masked to 24 bits. *)
Theorem add_spec (s : cpu) :
  let sum := signed s.(a) + signed (fetched_arg s) in
  (fst (inst_add s)).(a) = (if sum <? 0 then 1 else 0, Z.land (Z.abs sum) MASK24).
Proof.
  destruct s as [m p0 [sa va] bb ic pt bp ac rn op cn ad kb tt].
  unfold inst_add, bind, get. cbn -[arg_fetch]. rewrite arg_fetch_eq.
  unfold signed. cbn -[fetched_arg].
  destruct (fetched_arg _) as [sx vx]. cbn.
  set (sum := (if sa =? 0 then va else - va) + (if sx =? 0 then vx else - vx)).
  destruct (z_in ad ac); cbn;
  destruct (Z.ltb_spec sum 0); cbn; f_equal; f_equal; lia.
Qed.

(** ** Divide by zero (C3) *)

(** C3: when the modified divisor is 0, DIV clears the run flag, reports
    "Divide by Zero Stop" and leaves A and B as they were. *)
Theorem div_by_zero_stop (s : cpu) (Hz : snd (fetched_arg s) = 0) :
  snd (inst_div s) = inr "Divide by Zero Stop" /\
  (fst (inst_div s)).(run) = false /\
  (fst (inst_div s)).(a) = s.(a) /\
  (fst (inst_div s)).(b) = s.(b).
Proof.
  destruct s as [m p0 [sa va] bb ic pt bp ac rn op cn ad kb tt].
  unfold inst_div, bind, get, try_except. cbn -[arg_fetch]. rewrite arg_fetch_eq.
  cbn -[fetched_arg]. destruct (fetched_arg _) as [sv dv]. cbn in Hz. subst dv.
  cbn; repeat match goal with |- context [if ?c then _ else _] => destruct c end; repeat split.
Qed.

Lemma div_by_zero_stop_witness :
  let s := set_decode (set_a example_cpu (1, 5)) 20 0 128 in
  snd (fetched_arg s) = 0 /\ snd (inst_div s) = inr "Divide by Zero Stop".
Proof.
  cbv zeta. split; [vm_compute; reflexivity|].
  apply (div_by_zero_stop (set_decode (set_a example_cpu (1, 5)) 20 0 128)).
  vm_compute. reflexivity.
Defined.

(** ** Breakpoints and the instruction counter (C4) *)

(** C4: at a breakpoint [exec] only clears the run flag and reports
    "Breakpoint at <pc>": nothing is fetched (no address-compare stop) and
    PC, counter, A, B and memory are unchanged. Otherwise the instruction
    is dispatched (HLT and invalid opcodes included) and the counter grows
    by exactly one, whatever the handler does or raises. *)
Theorem exec_breakpoint_and_count (s : cpu) :
  (z_in s.(pc) s.(bpt) = true ->
     let s' := fst (exec s) in
     snd (exec s) = inr ("Breakpoint at " +:+ fmt_oct 4 s.(pc)) /\
     s' = set_run s false /\
     s'.(run) = false /\ s'.(pc) = s.(pc) /\
     s'.(instruction_count) = s.(instruction_count) /\
     s'.(a) = s.(a) /\ s'.(b) = s.(b) /\ s'.(mem) = s.(mem)) /\
  (z_in s.(pc) s.(bpt) = false ->
     (fst (exec s)).(instruction_count) = s.(instruction_count) + 1).
Proof.
  split.
  - intros H. cbv zeta. rewrite (exec_breakpoint_eq s H). cbn.
    repeat split.
  - intros H. rewrite (exec_dispatch_eq s H).
    assert (Hfd : (fetch_decode s).(instruction_count) = s.(instruction_count) + 1).
    { unfold fetch_decode. destruct (z_in (pc s) (acs s)); reflexivity. }
    destruct (lookup_handler _) as [h|]; [|exact Hfd].
    refine (proj1 (frame_handler
                     (fun s' => s'.(instruction_count) = s.(instruction_count) + 1)
                     _ _ _ _ _ _ _ _ _ h (fetch_decode s) Hfd));
      intros ? ? E; exact E.
Qed.

Lemma exec_breakpoint_and_count_witness :
  z_in 5 [5] = true /\ z_in 0 [] = false /\
  snd (exec (set_pc (mkCpu mem_zero 0 (0, 0) (0, 0) 7 None [5] [] true 0 0 0 [] []) 5))
    = inr "Breakpoint at 0005" /\
  (fst (exec example_cpu)).(instruction_count) = 1.
Proof.
  split; [reflexivity|]. split; [reflexivity|]. split.
  - refine (proj1 (proj1 (exec_breakpoint_and_count
                            (set_pc (mkCpu mem_zero 0 (0, 0) (0, 0) 7 None [5] [] true 0 0 0 [] []) 5))
                         eq_refl)).
  - exact (proj2 (exec_breakpoint_and_count example_cpu) eq_refl).
Defined.

(** ** Forced signs of the sign modifier (C5) *)

(** C5 as stated fails: the AND family with [opcode & 3 = 3] keeps A's
    prior sign (here 0), and the ADD family with [opcode & 3 = 2] gives the
    sign of the sum (here 1, from A = -5). *)
(** The new A of ADD: the sign-magnitude of the signed sum. *)
Lemma inst_add_a (s : cpu) :
  let sum := signed s.(a) + signed (fetched_arg s) in
  (fst (inst_add s)).(a) = (if sum <? 0 then 1 else 0, Z.land (Z.abs sum) MASK24).
Proof.
  destruct s as [m p0 [sa va] bb ic pt bp ac rn op cn ad kb tt].
  unfold inst_add, bind, get. cbn -[arg_fetch]. rewrite arg_fetch_eq.
  unfold signed. cbn -[fetched_arg].
  destruct (fetched_arg _) as [sx vx]. cbn.
  set (sum := (if sa =? 0 then va else - va) + (if sx =? 0 then vx else - vx)).
  destruct (z_in ad ac); cbn;
  destruct (Z.ltb_spec sum 0); cbn; f_equal; f_equal; lia.
Qed.

(** The sign MLT gives A and B: the XOR of A's sign and the argument's. *)
Lemma inst_mlt_sign (s : cpu) :
  let sg := if Bool.eqb (negb (fst s.(a) =? 0)) (negb (fst (fetched_arg s) =? 0)) then 0 else 1 in
  fst (fst (inst_mlt s)).(a) = sg /\ fst (fst (inst_mlt s)).(b) = sg.
Proof.
  cbv zeta. unfold inst_mlt, bind, get. cbn -[arg_fetch fetched_arg].
  destruct (a s) as [sa va]. rewrite arg_fetch_eq.
  destruct (fetched_arg s) as [sx vx]. cbn.
  destruct (z_in (addr s) (acs s)); split; reflexivity.
Qed.

(** The sign DIV gives A and B for a non-zero divisor: the same XOR. *)
Lemma inst_div_sign (s : cpu) :
  snd (fetched_arg s) <> 0 ->
  let sg := if Bool.eqb (negb (fst s.(a) =? 0)) (negb (fst (fetched_arg s) =? 0)) then 0 else 1 in
  fst (fst (inst_div s)).(a) = sg /\ fst (fst (inst_div s)).(b) = sg.
Proof.
  cbv zeta. unfold inst_div, bind, get, try_except, py_floordiv, py_mod.
  cbn -[arg_fetch fetched_arg]. destruct (a s) as [sa va]. rewrite arg_fetch_eq.
  destruct (fetched_arg s) as [sv dv]. cbn [snd fst]. intros Hd.
  apply Z.eqb_neq in Hd. cbn. rewrite Hd.
  destruct (z_in (addr s) (acs s)); cbn; rewrite ?Hd; split; reflexivity.
Qed.

Lemma sign_modifier_result_counterexample :
  let s_and := set_decode (set_a example_cpu (0, 5)) 7 0 0 in
  let s_add := set_decode (set_a example_cpu (1, 5)) 14 0 0 in
  Z.land 7 3 = 3 /\ fst (fst (inst_and s_and)).(a) = 0 /\
  Z.land 14 3 = 2 /\ fst (fst (inst_add s_add)).(a) = 1.
Proof. vm_compute. repeat split. Qed.

(** C5 (amended): the sign modifier forces the sign of the modifier
    unit's output. With [opcode & 3 = 2] the fetched argument has sign 0,
    CLA sets A's sign to 0, AND sets it to 0, and STA/STB store the word
    with sign bit 0; with [opcode & 3 = 3] the argument has sign 1, CLA
    sets A's sign to 1, AND keeps A's prior sign, and STA/STB store the
    word with sign bit 1. ADD, MLT and DIV combine the forced argument
    sign with A: ADD's sign is that of signed(A) plus (sign 0) or minus
    (sign 1) the fetched magnitude, MLT's and (for a non-zero divisor)
    DIV's sign of A and B is the XOR of A's sign and the forced sign. *)
Theorem sign_modifier_forced (s : cpu) :
  (Z.land s.(opcode) 3 = 2 ->
     fst (fetched_arg s) = 0 /\
     fst (fst (inst_cla s)).(a) = 0 /\
     fst (fst (inst_and s)).(a) = 0 /\
     (fst (inst_sta s)).(mem) =
       <[Z.to_nat s.(addr) := shift s.(count) (snd s.(a))]> s.(mem) /\
     (fst (inst_stb s)).(mem) =
       <[Z.to_nat s.(addr) := shift s.(count) (snd s.(b))]> s.(mem) /\
     fst (fst (inst_add s)).(a) =
       (if signed s.(a) + snd (fetched_arg s) <? 0 then 1 else 0) /\
     fst (fst (inst_mlt s)).(a) = (if fst s.(a) =? 0 then 0 else 1) /\
     fst (fst (inst_mlt s)).(b) = (if fst s.(a) =? 0 then 0 else 1) /\
     (snd (fetched_arg s) <> 0 ->
        fst (fst (inst_div s)).(a) = (if fst s.(a) =? 0 then 0 else 1) /\
        fst (fst (inst_div s)).(b) = (if fst s.(a) =? 0 then 0 else 1))) /\
  (Z.land s.(opcode) 3 = 3 ->
     fst (fetched_arg s) = 1 /\
     fst (fst (inst_cla s)).(a) = 1 /\
     fst (fst (inst_and s)).(a) = fst s.(a) /\
     (fst (inst_sta s)).(mem) =
       <[Z.to_nat s.(addr) := 2 ^ 24 + shift s.(count) (snd s.(a))]> s.(mem) /\
     (fst (inst_stb s)).(mem) =
       <[Z.to_nat s.(addr) := 2 ^ 24 + shift s.(count) (snd s.(b))]> s.(mem) /\
     fst (fst (inst_add s)).(a) =
       (if signed s.(a) - snd (fetched_arg s) <? 0 then 1 else 0) /\
     fst (fst (inst_mlt s)).(a) = (if fst s.(a) =? 0 then 1 else 0) /\
     fst (fst (inst_mlt s)).(b) = (if fst s.(a) =? 0 then 1 else 0) /\
     (snd (fetched_arg s) <> 0 ->
        fst (fst (inst_div s)).(a) = (if fst s.(a) =? 0 then 1 else 0) /\
        fst (fst (inst_div s)).(b) = (if fst s.(a) =? 0 then 1 else 0))).
Proof.
  assert (Hsta : (fst (inst_sta s)).(mem) =
            <[Z.to_nat s.(addr) := Z.shiftl (sign s.(opcode) (fst s.(a))) 24
                                   + shift s.(count) (snd s.(a))]> s.(mem))
    by apply store_reg_mem.
  assert (Hstb : (fst (inst_stb s)).(mem) =
            <[Z.to_nat s.(addr) := Z.shiftl (sign s.(opcode) (fst s.(b))) 24
                                   + shift s.(count) (snd s.(b))]> s.(mem))
    by apply store_reg_mem.
  pose proof (inst_add_a s) as Hadd. pose proof (inst_mlt_sign s) as Hmlt.
  pose proof (inst_div_sign s) as Hdiv. cbv zeta in Hadd, Hmlt, Hdiv.
  destruct Hmlt as [Hma Hmb].
  rewrite Hadd, Hma, Hmb, inst_cla_a, inst_and_a, Hsta, Hstb.
  assert (F0 : Z.land s.(opcode) 3 = 2 -> fst (fetched_arg s) = 0)
    by (intros Hop; exact (proj1 (sign_forced _ _) Hop)).
  assert (F1 : Z.land s.(opcode) 3 = 3 -> fst (fetched_arg s) = 1)
    by (intros Hop; exact (proj2 (sign_forced _ _) Hop)).
  destruct (fetched_arg s) as [fx fv]. cbn [fst snd] in *.
  split; intros Hop.
  - specialize (F0 Hop). subst fx.
    rewrite (proj1 (sign_forced _ (fst s.(a))) Hop), (proj1 (sign_forced _ (fst s.(b))) Hop).
    change (signed (0, fv)) with fv. cbn [Z.eqb negb].
    repeat split; try (destruct (fst (a s) =? 0); reflexivity);
      match goal with Hd : fv <> 0 |- _ =>
        destruct (Hdiv Hd) as [D1 D2]; rewrite ?D1, ?D2;
        destruct (fst (a s) =? 0); reflexivity end.
  - specialize (F1 Hop). subst fx.
    rewrite (proj2 (sign_forced _ (fst s.(a))) Hop), (proj2 (sign_forced _ (fst s.(b))) Hop).
    change (signed (1, fv)) with (- fv). cbn [Z.eqb negb].
    repeat split; try (destruct (fst (a s) =? 0); reflexivity);
      try match goal with Hd : fv <> 0 |- _ =>
        destruct (Hdiv Hd) as [D1 D2]; rewrite ?D1, ?D2;
        destruct (fst (a s) =? 0); reflexivity end.
Qed.

Lemma sign_modifier_forced_witness :
  let s2 := set_decode (set_a example_cpu (1, 5)) 10 0 0 in
  let s3 := set_decode (set_a example_cpu (0, 5)) 11 0 0 in
  Z.land 10 3 = 2 /\ fst (fst (inst_cla s2)).(a) = 0 /\
  Z.land 11 3 = 3 /\ fst (fst (inst_cla s3)).(a) = 1.
Proof.
  cbv zeta. split; [reflexivity|]. split.
  - exact (proj1 (proj2 (proj1 (sign_modifier_forced
             (set_decode (set_a example_cpu (1, 5)) 10 0 0)) eq_refl))).
  - split; [reflexivity|].
    exact (proj1 (proj2 (proj2 (sign_modifier_forced
             (set_decode (set_a example_cpu (0, 5)) 11 0 0)) eq_refl))).
Defined.

(** ** Paper-tape words *)

Lemma do_rt_loop_zeros (k : nat) (t : list Z) (n : Z) (sg : option Z) (v : Z) :
  0 < n -> do_rt_loop (List.repeat 0 k ++ t) n sg v = do_rt_loop t n sg v.
Proof.
  intros Hn. induction k as [|k IH]; [reflexivity|].
  cbn [List.repeat app]. cbn. destruct (Z.ltb_spec 0 n); [|lia]. exact IH.
Qed.

Lemma pow64_succ (n : Z) : 0 <= n -> 64 ^ (n + 1) = 64 ^ n * 64.
Proof. intros Hn. rewrite Z.pow_add_r by lia. reflexivity. Qed.

(** The digit phase: a completed word is the sign plus a 24-bit value. *)
Lemma do_rt_digits (t : list Z) (n sg v : Z) (p : option (list Z)) (w : Z) :
  Forall is_byte t -> 0 <= n <= 4 -> 0 <= v < 64 ^ (4 - n) ->
  do_rt_loop t n (Some sg) v = (p, inr w) ->
  exists v', w = sg + v' /\ 0 <= v' < 2 ^ 24.
Proof.
  revert n v. induction t as [|c t IH]; intros n v Hb Hn Hv Hrun; cbn in Hrun.
  - destruct (Z.ltb_spec 0 n); [discriminate|].
    injection Hrun as _ <-. exists v. split; [reflexivity|].
    assert (n = 0) by lia. subst n. exact Hv.
  - inversion Hb as [|? ? Hc Ht]; subst. unfold is_byte in Hc.
    destruct (Z.ltb_spec 0 n).
    + destruct (Z.ltb_spec 64 c); [discriminate|].
      destruct (Z.eqb_spec c 0).
      * exact (IH n v Ht Hn Hv Hrun).
      * eapply (IH (n - 1)); [exact Ht|lia| |exact Hrun].
        replace (4 - (n - 1)) with ((4 - n) + 1) by lia.
        rewrite pow64_succ by lia.
        destruct (Z.eqb_spec c 64); lia.
    + injection Hrun as _ <-. exists v. split; [reflexivity|].
      assert (n = 0) by lia. subst n. exact Hv.
Qed.

Lemma shiftr24_word (sg v : Z) :
  (sg = 0 \/ sg = 2 ^ 24) -> 0 <= v < 2 ^ 24 ->
  Z.shiftr (sg + v) 24 = sg / 2 ^ 24.
Proof.
  intros Hsg Hv. rewrite Z.shiftr_div_pow2 by lia.
  destruct Hsg as [-> | ->].
  - rewrite Z.div_small by lia. reflexivity.
  - replace (2 ^ 24 + v) with (1 * 2 ^ 24 + v) by lia.
    rewrite Z.div_add_l by lia. rewrite Z.div_small by lia. reflexivity.
Qed.

(** ** The sign byte of a tape word (C6) *)

(** C6 as stated fails: the sign byte 0x40 is not 0x00, yet the word RT
    stores from [00 40 01 01 01 01] has sign bit 0. *)
Lemma rt_sign_byte_counterexample :
  let s := set_ptr (set_decode example_cpu 48 63 0) (Some [0; 64; 1; 1; 1; 1]) in
  rd (fst (inst_rt s)) 0 = 266305 /\ Z.shiftr 266305 24 = 0.
Proof. vm_compute. split; reflexivity. Qed.

(** C6 (amended): after any run of 0x00 bytes, the first byte [c] of a
    word is its sign byte: 0x40 (the value 0) gives a positive word (sign
    bit 0), a byte 0x01-0x3F a negative word (sign bit 1), and a byte above
    0x40 is rejected as invalid. *)
Theorem rt_sign_byte (k : nat) (c : Z) (t : list Z) :
  Forall is_byte t ->
  (0 < c <= 64 -> forall p w,
     do_rt_loop (List.repeat 0 k ++ c :: t) 4 None 0 = (p, inr w) ->
     Z.shiftr w 24 = (if c =? 64 then 0 else 1)) /\
  (64 < c -> do_rt_loop (List.repeat 0 k ++ c :: t) 4 None 0 = (Some t, inl RuntimeError)).
Proof.
  intros Hb. rewrite do_rt_loop_zeros by lia. split.
  - intros Hc p w Hrun. cbn in Hrun.
    destruct (Z.ltb_spec 64 c); [lia|].
    destruct (Z.eqb_spec c 0); [lia|].
    destruct (Z.eqb_spec c 64) as [E|E].
    + cbn in Hrun.
      destruct (do_rt_digits t 4 0 0 p w Hb ltac:(lia) ltac:(cbn; lia) Hrun)
        as [v' [-> Hv']].
      rewrite shiftr24_word by lia. reflexivity.
    + destruct (Z.eqb_spec c 0); [lia|].
      destruct (do_rt_digits t 4 16777216 0 p w Hb ltac:(lia) ltac:(cbn; lia) Hrun)
        as [v' [-> Hv']].
      rewrite shiftr24_word by (cbn; lia). reflexivity.
  - intros Hc. cbn. destruct (Z.ltb_spec 64 c); [reflexivity|lia].
Qed.

Lemma rt_sign_byte_witness :
  Forall is_byte [1; 1; 1; 1] /\
  Z.shiftr 266305 24 = 0 /\
  do_rt_loop (List.repeat 0 2 ++ [65; 1; 1; 1; 1]) 4 None 0 = (Some [1; 1; 1; 1], inl RuntimeError).
Proof.
  assert (Hb : Forall is_byte [1; 1; 1; 1])
    by (repeat constructor; unfold is_byte; lia).
  split; [exact Hb|]. split.
  - apply (proj1 (rt_sign_byte 2 64 [1; 1; 1; 1] Hb) ltac:(lia) (Some []) 266305).
    vm_compute. reflexivity.
  - apply (proj2 (rt_sign_byte 2 65 [1; 1; 1; 1] Hb)). lia.
Defined.

(** ** End of tape during RT (C7) *)

Lemma do_rt_loop_consume (t : list Z) (n : Z) (sg : option Z) (v : Z) :
  Forall tape_ok t -> 0 <= n -> (sg = None -> 0 < n) ->
  let need := (Z.to_nat n + (if sg then 0 else 1))%nat in
  ((nz t < need)%nat -> do_rt_loop t n sg v = (None, inl EOFError)) /\
  ((need <= nz t)%nat -> exists t' w,
     do_rt_loop t n sg v = (Some t', inr w) /\ nz t = (nz t' + need)%nat /\
     Forall tape_ok t').
Proof.
  revert n sg v. induction t as [|c t IH]; intros n sg v Hb Hn Hsg need.
  - cbn. split.
    + intros Hlt. destruct (Z.ltb_spec 0 n); [reflexivity|].
      exfalso. destruct sg; [|specialize (Hsg eq_refl); lia].
      subst need. cbn in *. lia.
    + intros Hle. destruct (Z.ltb_spec 0 n).
      * exfalso. subst need. destruct sg; cbn in Hle; lia.
      * destruct sg; [|specialize (Hsg eq_refl); lia].
        exists [], (z + v). subst need. cbn in *.
        split; [reflexivity|]. split; [lia|constructor].
  - inversion Hb as [|? ? Hc Ht]; subst. unfold tape_ok in Hc.
    cbn [do_rt_loop].
    destruct (Z.ltb_spec 0 n) as [Hn0|Hn0].
    + destruct (Z.ltb_spec 64 c); [lia|].
      destruct (Z.eqb_spec c 0) as [Ec|Ec].
      * subst c. assert (nz (0 :: t) = nz t) as -> by reflexivity.
        exact (IH n sg v Ht Hn Hsg).
      * assert (nz (c :: t) = S (nz t)) as Enz.
        { unfold nz. cbn. destruct (Z.eqb_spec c 0); [lia|reflexivity]. }
        rewrite Enz. destruct sg as [z|].
        -- destruct (IH (n - 1) (Some z) (v * 64 + (if c =? 64 then 0 else c)) Ht
                       ltac:(lia) ltac:(discriminate)) as [H1 H2].
           assert (Z.to_nat (n - 1) + 0 = Z.to_nat n + 0 - 1)%nat as Ek by lia.
           subst need. split.
           ++ intros Hlt. apply H1. lia.
           ++ intros Hle. destruct (H2 ltac:(lia)) as [t' [w [E1 [E2 E3]]]].
              exists t', w. split; [exact E1|]. split; [lia|exact E3].
        -- destruct (IH n (Some (if (if c =? 64 then 0 else c) =? 0 then 0 else 16777216)) v Ht
                       ltac:(lia) ltac:(discriminate)) as [H1 H2].
           subst need. split.
           ++ intros Hlt. apply H1. lia.
           ++ intros Hle. destruct (H2 ltac:(lia)) as [t' [w [E1 [E2 E3]]]].
              exists t', w. split; [exact E1|]. split; [lia|exact E3].
    + destruct sg; [|specialize (Hsg eq_refl); lia].
      subst need. assert (n = 0) by lia. subst n.
      change (Z.to_nat 0 + 0)%nat with 0%nat. split; [lia|].
      intros _. exists (c :: t), (z + v). split; [reflexivity|]. split; [lia|exact Hb].
Qed.

Lemma rt_loop_S (n : nat) (s : cpu) :
  rt_loop (S n) s =
  let '(s1, r) := do_rt s in
  match r with
  | inl EOFError => (s1, inr tt)
  | inl RuntimeError => (set_run s1 false, inr tt)
  | inl e => (s1, inl e)
  | inr w =>
      let s2 := fst (wm s.(addr) w s1) in
      rt_loop n (set_addr s2 (Z.land (s2.(addr) + 1) 4095))
  end.
Proof.
  cbn [rt_loop]. unfold bind, try_except, get, next_addr, modify, ret, clear_run.
  destruct (do_rt s) as [s1 [[]|w]]; reflexivity.
Qed.

Lemma do_rt_eq (s : cpu) (t : list Z) :
  s.(ptr) = Some t ->
  do_rt s = (set_ptr s (fst (do_rt_loop t 4 None 0)), snd (do_rt_loop t 4 None 0)).
Proof.
  intros H. unfold do_rt. rewrite H. destruct (do_rt_loop t 4 None 0). reflexivity.
Qed.

Lemma rt_loop_eof (n : nat) (s : cpu) (t : list Z) :
  s.(ptr) = Some t -> Forall tape_ok t -> s.(acs) = [] ->
  (nz t < 5 * n)%nat ->
  (fst (rt_loop n s)).(ptr) = None /\ (fst (rt_loop n s)).(run) = s.(run) /\
  snd (rt_loop n s) = inr tt.
Proof.
  revert s t. induction n as [|n IH]; intros s t Hp Hb Hacs Hlt; [lia|].
  rewrite rt_loop_S, (do_rt_eq s t Hp).
  destruct (do_rt_loop_consume t 4 None 0 Hb ltac:(lia) ltac:(lia)) as [H1 H2].
  cbn zeta in H1, H2. change (Z.to_nat 4 + 1)%nat with 5%nat in H1, H2.
  destruct (Nat.lt_ge_cases (nz t) 5) as [Hsmall|Hbig].
  - rewrite (H1 Hsmall). cbn. repeat split.
  - destruct (H2 Hbig) as [t' [w [E1 [E2 E3]]]]. rewrite E1. cbn -[rt_loop].
    unfold wm. rewrite Hacs. cbn -[rt_loop].
    match goal with
    | |- context [rt_loop n ?X] =>
        destruct (IH X t' eq_refl E3 Hacs ltac:(lia)) as [R1 [R2 R3]]
    end.
    split; [exact R1|]. split; [exact R2|exact R3].
Qed.

Lemma inst_rt_some (s : cpu) (t : list Z) :
  s.(ptr) = Some t ->
  inst_rt s =
  let '(s1, r) := rt_loop (Z.to_nat (64 - s.(count))) s in
  match r with
  | inl e => (s1, inl e)
  | inr _ => (s1, inr ("next addr:     " +:+ fmt_oct 4 s1.(addr)))
  end.
Proof.
  intros H. unfold inst_rt, bind, get. cbn -[rt_loop]. rewrite H.
  destruct (rt_loop _ s) as [s1 [e|[]]]; reflexivity.
Qed.

Lemma inst_rt_none (s : cpu) :
  s.(ptr) = None -> inst_rt s = (set_run s false, inr "No Tape in PTReader").
Proof. intros H. unfold inst_rt, bind, get. cbn. rewrite H. reflexivity. Qed.

(** C7: when the tape runs out while RT is reading (fewer non-blank bytes
    than the words requested need, so EOF may come in the middle of a
    word), the transfer stops without an error and without touching the
    run flag (no address-compare stop being set), the tape is detached,
    and the next RT stops the CPU with "No Tape in PTReader". *)
Theorem rt_eof_closes_tape (s : cpu) (t : list Z) :
  s.(ptr) = Some t -> Forall tape_ok t -> s.(acs) = [] ->
  (nz t < 5 * Z.to_nat (64 - s.(count)))%nat ->
  let s' := fst (inst_rt s) in
  s'.(ptr) = None /\ s'.(run) = s.(run) /\
  snd (inst_rt s) = inr ("next addr:     " +:+ fmt_oct 4 s'.(addr)) /\
  inst_rt s' = (set_run s' false, inr "No Tape in PTReader").
Proof.
  intros Hp Hb Hacs Hlt.
  destruct (rt_loop_eof _ s t Hp Hb Hacs Hlt) as [R1 [R2 R3]].
  rewrite (inst_rt_some s t Hp).
  destruct (rt_loop _ s) as [s1 r1]. cbn in R1, R2, R3. subst r1. cbn zeta.
  split; [exact R1|]. split; [exact R2|]. split; [reflexivity|].
  apply inst_rt_none. exact R1.
Qed.

Lemma rt_eof_closes_tape_witness :
  let s := set_ptr (set_decode example_cpu 48 62 0) (Some [0; 64; 1; 1; 1; 1; 0; 7; 7]) in
  Forall tape_ok [0; 64; 1; 1; 1; 1; 0; 7; 7] /\
  (fst (inst_rt s)).(ptr) = None /\ rd (fst (inst_rt s)) 0 = 266305.
Proof.
  assert (Hb : Forall tape_ok [0; 64; 1; 1; 1; 1; 0; 7; 7])
    by (repeat constructor; unfold tape_ok; lia).
  cbv zeta. split; [exact Hb|]. split.
  - apply (rt_eof_closes_tape
             (set_ptr (set_decode example_cpu 48 62 0) (Some [0; 64; 1; 1; 1; 1; 0; 7; 7]))
             [0; 64; 1; 1; 1; 1; 0; 7; 7] eq_refl Hb eq_refl).
    vm_compute. lia.
  - vm_compute. reflexivity.
Defined.

(** ** Store then load (C8) *)

Lemma fetch_decode_fields (s : cpu) :
  let fd := fetch_decode s in
  fd.(pc) = (s.(pc) + 1) mod 4096 /\ fd.(a) = s.(a) /\ fd.(mem) = s.(mem) /\
  fd.(bpt) = s.(bpt) /\ fd.(acs) = s.(acs) /\
  fd.(opcode) = Z.land (Z.shiftr (rd s s.(pc)) 18) 63 /\
  fd.(count) = Z.land (Z.shiftr (rd s s.(pc)) 12) 63 /\
  fd.(addr) = Z.land (rd s s.(pc)) 4095.
Proof. unfold fetch_decode. destruct (z_in _ _); repeat split. Qed.

Lemma inst_sta_state (s : cpu) :
  fst (inst_sta s) =
  set_mem (if z_in s.(addr) s.(acs) then set_run s false else s)
    (<[Z.to_nat s.(addr) := Z.shiftl (sign s.(opcode) (fst s.(a))) 24
                             + shift s.(count) (snd s.(a))]> s.(mem)).
Proof.
  unfold inst_sta, store_reg, bind, get, wm. cbn.
  destruct (z_in _ _); reflexivity.
Qed.

Lemma sign_pass (op x : Z) :
  Z.land op 3 = 0 -> sign op x = if x =? 0 then 0 else 1.
Proof. intros H. unfold sign. rewrite H. reflexivity. Qed.

Lemma shift_0 (v : Z) : 0 <= v < 2 ^ 24 -> shift 0 v = v.
Proof.
  intros Hv. unfold shift. cbn. rewrite Z.shiftl_0_r, land_MASK24.
  apply Z.mod_small; exact Hv.
Qed.

(** The fields of a word [sgn << 24 + val] as [_arg_fetch] masks them. *)
Lemma word_fields (sg v : Z) :
  (sg = 0 \/ sg = 1) -> 0 <= v < 2 ^ 24 ->
  (Z.land (Z.shiftl sg 24 + v) SIGNMASK =? 0) = (sg =? 0) /\
  Z.land (Z.shiftl sg 24 + v) MASK24 = v.
Proof.
  intros Hsg Hv. rewrite Z.shiftl_mul_pow2 by lia. split.
  - destruct Hsg as [-> | ->]; cbn [Z.eqb].
    + apply Z.eqb_eq. apply Z.bits_inj'. intros n Hn.
      rewrite Z.land_spec, Z.bits_0. rewrite Z.mul_0_l, Z.add_0_l.
      destruct (Z.lt_ge_cases n 24).
      * change SIGNMASK with (Z.shiftl 255 24).
        rewrite Z.shiftl_spec_low by lia. apply andb_false_r.
      * rewrite <- (Z.mod_small v (2 ^ 24)) by lia.
        rewrite Z.mod_pow2_bits_high by lia. reflexivity.
    + apply Z.eqb_neq. intros H0.
      assert (Z.testbit (Z.land (1 * 2 ^ 24 + v) SIGNMASK) 24 = true) as T.
      { rewrite Z.land_spec. apply andb_true_intro. split; [|reflexivity].
        apply Z.testbit_true; [lia|].
        replace (1 * 2 ^ 24 + v) with (v + 1 * 2 ^ 24) by lia.
        rewrite Z.div_add by lia. rewrite Z.div_small by lia. reflexivity. }
      rewrite H0 in T. discriminate.
  - rewrite land_MASK24. rewrite Z.add_comm, Z.mod_add by lia.
    apply Z.mod_small; exact Hv.
Qed.

(** C8: with [STA k] at the PC and [CLA k] after it (count 0, modifier 0,
    any sign byte in the instruction words, [k] not the CLA's own address),
    the two steps leave A bit-for-bit unchanged, negative zero included. *)
Theorem sta_cla_roundtrip (s : cpu) (k : Z) :
  length s.(mem) = 4096%nat -> reg_ok s.(a) ->
  z_in s.(pc) s.(bpt) = false ->
  z_in ((s.(pc) + 1) mod 4096) s.(bpt) = false ->
  Z.land (Z.shiftr (rd s s.(pc)) 18) 63 = 24 ->
  Z.land (Z.shiftr (rd s s.(pc)) 12) 63 = 0 ->
  Z.land (rd s s.(pc)) 4095 = k ->
  Z.land (Z.shiftr (rd s ((s.(pc) + 1) mod 4096)) 18) 63 = 8 ->
  Z.land (Z.shiftr (rd s ((s.(pc) + 1) mod 4096)) 12) 63 = 0 ->
  Z.land (rd s ((s.(pc) + 1) mod 4096)) 4095 = k ->
  k <> (s.(pc) + 1) mod 4096 ->
  (fst (exec (fst (exec s)))).(a) = s.(a).
Proof.
  intros Hlen [Hsa Hva] Hb1 Hb2 Hop1 Hc1 Ha1 Hop2 Hc2 Ha2 Hk.
  assert (Hkr : 0 <= k < 4096).
  { rewrite <- Ha1, land_4095. apply Z.mod_pos_bound. lia. }
  destruct (fetch_decode_fields s) as [F1 [F2 [F3 [F4 [F5 [F6 [F7 F8]]]]]]].
  rewrite (exec_dispatch_eq s Hb1), F6, Hop1. cbn [lookup_handler List.find
    implemented_instructions fst Z.eqb Pos.eqb run_handler].
  rewrite inst_sta_state, F2, F3, F6, F7, F8, Hop1, Hc1, Ha1.
  rewrite (sign_pass 24 _ eq_refl), (shift_0 _ Hva).
  set (wd := Z.shiftl (if fst (a s) =? 0 then 0 else 1) 24 + snd (a s)).
  set (s1 := set_mem _ _).
  assert (E1 : s1.(pc) = (s.(pc) + 1) mod 4096 /\ s1.(bpt) = s.(bpt) /\
               s1.(a) = s.(a) /\ s1.(mem) = <[Z.to_nat k := wd]> s.(mem)).
  { subst s1. rewrite <- F1, <- F4, <- F2.
    destruct (z_in k (acs (fetch_decode s))); repeat split. }
  destruct E1 as [P1 [P2 [P3 P4]]].
  assert (Hb1' : z_in s1.(pc) s1.(bpt) = false) by (rewrite P1, P2; exact Hb2).
  assert (Hrd : rd s1 s1.(pc) = rd s ((s.(pc) + 1) mod 4096)).
  { unfold rd. rewrite P1, P4. rewrite list_lookup_insert_ne; [reflexivity|].
    intros E. apply Hk. apply Z2Nat.inj in E; [exact E|lia|].
    apply Z.mod_pos_bound. lia. }
  destruct (fetch_decode_fields s1) as [G1 [G2 [G3 [G4 [G5 [G6 [G7 G8]]]]]]].
  rewrite (exec_dispatch_eq s1 Hb1'), G6, Hrd, Hop2.
  cbn [lookup_handler List.find implemented_instructions fst Z.eqb Pos.eqb run_handler].
  rewrite inst_cla_a. unfold fetched_arg.
  rewrite G7, G8, Hrd, Hc2, Ha2, G6, Hrd, Hop2.
  assert (Hwd : rd (fetch_decode s1) k = wd).
  { unfold rd. rewrite G3, P4. rewrite list_lookup_insert_eq; [reflexivity|]. lia. }
  rewrite Hwd.
  assert (Hs : (if fst (a s) =? 0 then 0 else 1) = fst (a s)).
  { destruct Hsa as [-> | ->]; reflexivity. }
  destruct (word_fields (if fst (a s) =? 0 then 0 else 1) (snd (a s))
              ltac:(rewrite Hs; exact Hsa) Hva) as [W1 W2].
  fold wd in W1, W2.
  rewrite (sign_pass 8 _ eq_refl), W1, W2, (shift_0 _ Hva).
  destruct (a s) as [sa va]. cbn in Hsa |- *. destruct Hsa as [-> | ->]; reflexivity.
Qed.

Lemma sta_cla_roundtrip_witness :
  let s := set_a (set_mem example_cpu
                    (<[0%nat := 24 * 2 ^ 18 + 5]> (<[1%nat := 8 * 2 ^ 18 + 5]> mem_zero)))
                 (1, 0) in
  (fst (exec (fst (exec s)))).(a) = (1, 0).
Proof.
  cbv zeta.
  apply (sta_cla_roundtrip
           (set_a (set_mem example_cpu
                     (<[0%nat := 24 * 2 ^ 18 + 5]> (<[1%nat := 8 * 2 ^ 18 + 5]> mem_zero)))
                  (1, 0)) 5);
    try (vm_compute; reflexivity).
  - unfold reg_ok. cbn. lia.
  - vm_compute. discriminate.
Defined.

(** ** The machine invariant (C9) *)

Lemma word_ok_iff (w : Z) : word_ok w <-> 0 <= w < 2 ^ 25.
Proof.
  unfold word_ok. rewrite Z.shiftr_div_pow2 by lia. split.
  - intros [H0 [H1|H1]].
    + split; [exact H0|].
      destruct (Z.lt_ge_cases w (2 ^ 25)) as [|Hge]; [assumption|].
      assert (2 <= w / 2 ^ 24) by (apply Z.div_le_lower_bound; lia). lia.
    + split; [exact H0|].
      destruct (Z.lt_ge_cases w (2 ^ 25)) as [|Hge]; [assumption|].
      assert (2 <= w / 2 ^ 24) by (apply Z.div_le_lower_bound; lia). lia.
  - intros Hw. split; [lia|].
    assert (0 <= w / 2 ^ 24) by (apply Z.div_pos; lia).
    assert (w / 2 ^ 24 < 2) by (apply Z.div_lt_upper_bound; lia). lia.
Qed.

Lemma mask24_bound (x : Z) : 0 <= Z.land x MASK24 < 2 ^ 24.
Proof. rewrite land_MASK24. apply Z.mod_pos_bound. lia. Qed.

Lemma mask12_bound (x : Z) : 0 <= Z.land x 4095 < 4096.
Proof. rewrite land_4095. apply Z.mod_pos_bound. lia. Qed.

Lemma land_bound24 (x y : Z) :
  0 <= x < 2 ^ 24 -> 0 <= Z.land x y < 2 ^ 24.
Proof.
  intros Hx.
  rewrite <- (Z.mod_small x (2 ^ 24)) by lia. rewrite <- land_MASK24.
  rewrite <- Z.land_assoc, (Z.land_comm MASK24 y), Z.land_assoc.
  apply mask24_bound.
Qed.

Lemma sign_01 (op x : Z) : sign op x = 0 \/ sign op x = 1.
Proof.
  unfold sign.
  destruct (x =? 0), (Z.land op 3 =? 1), (Z.land op 3 =? 2), (Z.land op 3 =? 3); cbn; lia.
Qed.

Lemma shift_bound (c v : Z) : 0 <= shift c v < 2 ^ 24.
Proof. unfold shift. apply mask24_bound. Qed.

Lemma if01 (b : bool) : (if b then 1 else 0) = 0 \/ (if b then 1 else 0) = 1.
Proof. destruct b; auto. Qed.

Lemma if01' (b : bool) : (if b then 0 else 1) = 0 \/ (if b then 0 else 1) = 1.
Proof. destruct b; auto. Qed.

(** *** The invariant under each state update *)

Lemma inv_run s r : inv s -> inv (set_run s r).
Proof. intros H. exact H. Qed.

Ltac inv_setter :=
  intros; unfold inv, wf, tape_bytes in *; cbn in *; intuition.

Lemma inv_a s r : reg_ok r -> inv s -> inv (set_a s r).
Proof. inv_setter. Qed.

Lemma inv_b s r : reg_ok r -> inv s -> inv (set_b s r).
Proof. inv_setter. Qed.

Lemma inv_pc s p : 0 <= p < 4096 -> inv s -> inv (set_pc s p).
Proof. inv_setter. Qed.

Lemma inv_addr s ad : 0 <= ad < 4096 -> inv s -> inv (set_addr s ad).
Proof. inv_setter. Qed.

Lemma inv_kbd s k : inv s -> inv (set_kbd s k).
Proof. intros H. exact H. Qed.

Lemma inv_tty s t : inv s -> inv (set_tty s t).
Proof. intros H. exact H. Qed.

Lemma inv_ptr s p :
  match p with Some t => Forall is_byte t | None => True end ->
  inv s -> inv (set_ptr s p).
Proof. inv_setter. Qed.

Lemma inv_mem s i v : 0 <= v < 2 ^ 25 -> inv s -> inv (set_mem s (<[i := v]> s.(mem))).
Proof.
  inv_setter. apply Forall_insert; [assumption|]. apply word_ok_iff. lia.
Qed.

Lemma inv_wf s : inv s -> wf s.
Proof. intros H. apply H. Qed.

(** *** Leaves *)

Lemma inv_rm ad : hoare inv (rm ad) (fun w => 0 <= w < 2 ^ 25).
Proof.
  intros s Hs. unfold rm. split.
  - cbn. destruct (z_in ad (acs s)); [apply inv_run|]; exact Hs.
  - intros w Hw. cbn in Hw. injection Hw as <-.
    destruct (mem s !! Z.to_nat ad) as [w|] eqn:E; cbn; [|lia].
    apply word_ok_iff. eapply Forall_lookup_1; [apply Hs|exact E].
Qed.

Lemma inv_wm ad v : 0 <= v < 2 ^ 25 -> hoare inv (wm ad v) (fun _ => True).
Proof.
  intros Hv s Hs. unfold wm. split; [|auto]. cbn.
  destruct (z_in ad (acs s)); apply inv_mem; auto.
Qed.

Lemma inv_arg_fetch : hoare inv arg_fetch reg_ok.
Proof.
  eapply hoare_bind; [apply hoare_get|]. intros s0 _.
  eapply hoare_bind; [apply inv_rm|]. intros w _.
  apply hoare_ret. split; [apply sign_01|apply shift_bound].
Qed.

Lemma lor_shiftl6 (wd c : Z) :
  0 <= c < 64 -> Z.lor (Z.shiftl wd 6) c = wd * 64 + c.
Proof.
  intros Hc. rewrite Z.shiftl_mul_pow2 by lia. change (2 ^ 6) with 64.
  assert (Hl : Z.land (wd * 64) c = 0).
  { apply Z.bits_inj'. intros i Hi. rewrite Z.land_spec, Z.bits_0.
    destruct (Z.lt_ge_cases i 6).
    - change 64 with (2 ^ 6). rewrite <- Z.shiftl_mul_pow2 by lia.
      rewrite Z.shiftl_spec_low by lia. reflexivity.
    - rewrite <- (Z.mod_small c (2 ^ 6)) by (cbn; lia).
      rewrite Z.mod_pow2_bits_high by lia. apply andb_false_r. }
  rewrite <- Z.lxor_lor by exact Hl. rewrite Z.add_nocarry_lxor by exact Hl.
  reflexivity.
Qed.

Lemma assoc_tichars (k v : Z) : assoc k tichars = Some v -> 0 <= v < 64.
Proof.
  assert (Hall : Forall (fun p => 0 <= snd p < 64) tichars)
    by (repeat constructor; cbn; lia).
  induction tichars as [|[k' v'] l IH]; cbn; [discriminate|].
  inversion Hall as [|? ? Hp Hl]; subst.
  destruct (k =? k'); [intros H; injection H as <-; exact Hp|].
  apply IH, Hl.
Qed.

Lemma do_rt_loop_suffix (t : list Z) (n : Z) (sg : option Z) (v : Z) r x :
  do_rt_loop t n sg v = (Some r, x) -> exists pre, t = pre ++ r.
Proof.
  revert n sg v. induction t as [|c t IH]; intros n sg v H; cbn in H.
  - destruct (0 <? n); [discriminate|]. injection H as <- _. exists []. reflexivity.
  - destruct (0 <? n).
    + destruct (64 <? c).
      * injection H as <- _. exists [c]. reflexivity.
      * destruct (c =? 0); [|destruct sg];
          destruct (IH _ _ _ H) as [pre ->]; exists (c :: pre); reflexivity.
    + injection H as <- _. exists []. reflexivity.
Qed.

Lemma do_rt_loop_bytes (t : list Z) (n : Z) (sg : option Z) (v : Z) r x :
  Forall is_byte t -> do_rt_loop t n sg v = (Some r, x) -> Forall is_byte r.
Proof.
  intros Hb H. destruct (do_rt_loop_suffix _ _ _ _ _ _ H) as [pre ->].
  apply Forall_app in Hb. apply Hb.
Qed.

(** A word read from a tape of bytes is below [2^25]. *)
Lemma do_rt_loop_word (t : list Z) (p : option (list Z)) (w : Z) :
  Forall is_byte t -> do_rt_loop t 4 None 0 = (p, inr w) -> 0 <= w < 2 ^ 25.
Proof.
  induction t as [|c t IH]; intros Hb H; cbn in H; [discriminate|].
  inversion Hb as [|? ? Hc Ht]; subst. unfold is_byte in Hc.
  destruct (Z.ltb_spec 64 c); [discriminate|].
  destruct (c =? 0); [exact (IH Ht H)|].
  match type of H with
  | do_rt_loop _ _ (Some ?sg) _ = _ =>
      assert (Hsg : sg = 0 \/ sg = 2 ^ 24) by (destruct (_ =? 0); auto);
      destruct (do_rt_digits t 4 sg 0 p w Ht ltac:(lia) ltac:(cbn; lia) H)
        as [v' [-> Hv']]
  end.
  destruct Hsg as [-> | ->]; lia.
Qed.

Lemma inv_do_rt : hoare inv do_rt (fun w => 0 <= w < 2 ^ 25).
Proof.
  intros s Hs. unfold do_rt.
  pose proof Hs as (_ & _ & Ht). unfold tape_bytes in Ht.
  destruct (ptr s) as [t|] eqn:E.
  - destruct (do_rt_loop t 4 None 0) as [p r] eqn:R. cbn. split.
    + apply inv_ptr; [|exact Hs].
      destruct p as [r'|]; [|exact I]. exact (do_rt_loop_bytes _ _ _ _ _ _ Ht R).
    + intros w ->. exact (do_rt_loop_word _ _ _ Ht R).
  - cbn. split; [exact Hs|discriminate].
Qed.

Lemma inv_ti_char : hoare inv ti_char (fun c => 0 <= c < 64).
Proof.
  intros s Hs. unfold ti_char.
  assert (Hc : forall keys k x, ti_char_loop keys = (k, inr x) -> 0 <= x < 64).
  { induction keys as [|c keys IH]; intros k x H; cbn [ti_char_loop] in H; [discriminate|].
    destruct (c =? 3); [discriminate|].
    destruct (assoc c tichars) eqn:E; [injection H as _ <-; exact (assoc_tichars _ _ E)|].
    exact (IH _ _ H). }
  destruct (ti_char_loop (kbd s)) as [k r] eqn:R. cbn.
  split; [apply inv_kbd, Hs|]. intros x ->. exact (Hc _ _ _ R).
Qed.

(** *** Handlers *)

Ltac inv_step :=
  match goal with
  | |- hoare _ (bind get _) _ =>
      eapply hoare_bind; [apply hoare_get|intros ?s0 ?Hs0]
  | |- hoare _ (bind arg_fetch _) _ =>
      eapply hoare_bind; [apply inv_arg_fetch|intros [?sg ?v] [?Hsg ?Hv]; cbn in *]
  | |- hoare _ (bind (rm _) _) _ =>
      eapply hoare_bind; [apply inv_rm|intros ?w ?Hw]
  | |- hoare _ (bind do_rt _) _ =>
      eapply hoare_bind; [apply inv_do_rt|intros ?w ?Hw]
  | |- hoare _ (bind ti_char _) _ =>
      eapply hoare_bind; [apply inv_ti_char|intros ?c ?Hc]
  | |- hoare _ (bind (wm _ _) _) _ =>
      eapply hoare_bind; [apply inv_wm|intros _ _]
  | |- hoare _ (bind (modify _) _) _ =>
      eapply hoare_bind; [apply hoare_modify; intros ?st ?Hst|intros _ _]
  | |- hoare _ (bind clear_run _) _ =>
      eapply hoare_bind; [apply hoare_modify; intros ?st ?Hst; apply inv_run, Hst|intros _ _]
  | |- hoare _ (bind next_addr _) _ =>
      eapply hoare_bind;
        [apply hoare_modify; intros ?st ?Hst; apply inv_addr; [apply mask12_bound|exact Hst]
        |intros _ _]
  | |- hoare _ (bind _ _) _ =>
      apply (hoare_bind _ _ _ (fun _ => True)); [|intros ? _]
  | |- hoare _ (try_except _ _) _ => apply hoare_try; [|intros []]
  | |- hoare _ (ret _) _ => apply hoare_ret; auto
  | |- hoare _ (raise _) _ => apply hoare_raise
  | |- hoare _ clear_run _ => apply hoare_modify; intros ?st ?Hst; apply inv_run, Hst
  | |- hoare _ (let '(_, _) := ?p in _) _ => destruct p
  | |- hoare _ (if ?c then _ else _) _ => destruct c
  | |- hoare _ (match ?x with _ => _ end) _ => destruct x
  end.

Lemma word_bound (sg v : Z) :
  (sg = 0 \/ sg = 1) -> 0 <= v < 2 ^ 24 -> 0 <= Z.shiftl sg 24 + v < 2 ^ 25.
Proof. intros Hs Hv. rewrite Z.shiftl_mul_pow2 by lia. destruct Hs as [-> | ->]; lia. Qed.

Lemma inv_store_reg ad r :
  reg_ok r -> hoare inv (store_reg ad r) (fun _ => True).
Proof.
  intros Hr. unfold store_reg. repeat inv_step.
  apply word_bound; [apply sign_01|apply shift_bound].
Qed.

Lemma inv_jmp : hoare inv inst_jmp (fun _ => True).
Proof.
  unfold inst_jmp. repeat inv_step.
  apply inv_pc; [apply Hs0|exact Hst].
Qed.

Lemma inv_reg_a s : inv s -> reg_ok s.(a).
Proof. intros H. apply H. Qed.

Lemma inv_reg_b s : inv s -> reg_ok s.(b).
Proof. intros H. apply H. Qed.

Lemma inv_addr_range s : inv s -> 0 <= s.(addr) < 4096.
Proof. intros H. apply H. Qed.

Ltac inv_finish :=
  repeat match goal with
  | |- hoare _ inst_jmp _ => apply inv_jmp
  | |- hoare _ (store_reg _ _) _ => apply inv_store_reg
  | |- inv (set_a _ _) => apply inv_a; [|assumption]
  | |- inv (set_b _ _) => apply inv_b
  | |- inv (set_tty _ _) => apply inv_tty; assumption
  | |- reg_ok _ => split; cbn
  | |- (if _ then 1 else 0) = 0 \/ _ => apply if01
  | |- (if _ then 0 else 1) = 0 \/ _ => apply if01'
  | |- 0 <= Z.land _ MASK24 < 2 ^ 24 => apply mask24_bound
  end.

Lemma inv_hlt : hoare inv inst_hlt (fun _ => True).
Proof. unfold inst_hlt. repeat inv_step. Qed.

Lemma inv_and : hoare inv inst_and (fun _ => True).
Proof.
  unfold inst_and. repeat inv_step; inv_finish.
  - destruct (sg =? 0); [left; reflexivity|apply (inv_reg_a _ Hs0)].
  - apply land_bound24. exact Hv.
Qed.

Lemma inv_cla : hoare inv inst_cla (fun _ => True).
Proof. unfold inst_cla. repeat inv_step; inv_finish; assumption. Qed.

Lemma inv_add : hoare inv inst_add (fun _ => True).
Proof. unfold inst_add. repeat inv_step; inv_finish. Qed.

Lemma inv_mlt : hoare inv inst_mlt (fun _ => True).
Proof. unfold inst_mlt. repeat inv_step; inv_finish. Qed.

Lemma inv_div : hoare inv inst_div (fun _ => True).
Proof.
  unfold inst_div. do 3 inv_step. cbv zeta.
  eapply (hoare_bind _ _ _
            (fun r => match r with
                      | Some (q, m) => 0 <= q < 2 ^ 24 /\ 0 <= m < 2 ^ 24
                      | None => True end)).
  - unfold py_floordiv, py_mod. repeat inv_step; inv_finish.
    split; apply mask24_bound.
  - intros r Hr. destruct r as [[q m]|]; repeat inv_step; inv_finish; apply Hr.
Qed.

Lemma inv_sta : hoare inv inst_sta (fun _ => True).
Proof. unfold inst_sta. repeat inv_step. apply inv_store_reg, (inv_reg_a _ Hs0). Qed.

Lemma inv_stb : hoare inv inst_stb (fun _ => True).
Proof. unfold inst_stb. repeat inv_step. apply inv_store_reg, (inv_reg_b _ Hs0). Qed.

Lemma inv_branches :
  hoare inv inst_br_minus (fun _ => True) /\ hoare inv inst_br_plus (fun _ => True) /\
  hoare inv inst_brz (fun _ => True).
Proof.
  unfold inst_br_minus, inst_br_plus, inst_brz.
  split; [|split]; repeat inv_step; inv_finish.
Qed.

(** *** The I/O loops *)

Lemma inv_ta_loop n idx wd buf : hoare inv (ta_loop n idx wd buf) (fun _ => True).
Proof.
  revert idx wd buf. induction n as [|n IH]; intros idx wd buf; cbn.
  - apply hoare_ret; auto.
  - apply (hoare_bind _ _ _ (fun _ => True)); [repeat inv_step|intros; apply IH].
Qed.

Lemma inv_rt_loop n : hoare inv (rt_loop n) (fun _ => True).
Proof.
  induction n as [|n IH]; cbn.
  - apply hoare_ret; auto.
  - apply (hoare_bind _ _ _ (fun _ => True)); [repeat inv_step; assumption|].
    intros [] _; [apply IH|apply hoare_ret; auto].
Qed.

(** In [_inst_ti], [wd] holds [idx mod 4] six-bit codes. *)
Lemma inv_ti_loop n idx wd :
  0 <= idx -> 0 <= wd < 2 ^ (6 * (idx mod 4)) ->
  hoare inv (ti_loop n idx wd) (fun _ => True).
Proof.
  revert idx wd. induction n as [|n IH]; intros idx wd Hi Hwd; cbn.
  - apply hoare_ret; auto.
  - inv_step. cbv beta in Hc. cbv zeta. rewrite lor_shiftl6 by exact Hc.
    pose proof (Z.mod_pos_bound idx 4) as Hm.
    destruct (Z.eqb_spec (idx mod 4) 3) as [E|E].
    + rewrite E in Hwd. change (2 ^ (6 * 3)) with 262144 in Hwd.
      repeat inv_step; [change (2 ^ 25) with 33554432; lia|].
      apply IH; [lia|]. split; [lia|]. apply Z.pow_pos_nonneg; [lia|].
      pose proof (Z.mod_pos_bound (idx + 1) 4). lia.
    + apply IH; [lia|].
      assert (E1 : (idx + 1) mod 4 = idx mod 4 + 1).
      { rewrite Z.add_mod by lia.
        change (1 mod 4) with 1. apply Z.mod_small. lia. }
      rewrite E1, Z.mul_add_distr_l, Z.pow_add_r by lia.
      change (2 ^ (6 * 1)) with 64. lia.
Qed.

Lemma inv_ta : hoare inv inst_ta (fun _ => True).
Proof.
  unfold inst_ta. repeat inv_step; [apply inv_ta_loop|inv_finish].
Qed.

Lemma inv_rt : hoare inv inst_rt (fun _ => True).
Proof. unfold inst_rt. repeat inv_step. apply inv_rt_loop. Qed.

Lemma inv_ti : hoare inv inst_ti (fun _ => True).
Proof.
  unfold inst_ti. repeat inv_step.
  apply inv_ti_loop; [lia|]. split; [lia|reflexivity].
Qed.

Lemma inv_handler h : hoare inv (run_handler h) (fun _ => True).
Proof.
  destruct inv_branches as (Hm & Hp & Hz).
  destruct h;
    [ exact inv_hlt | exact inv_and | exact inv_cla | exact inv_add
    | exact inv_mlt | exact inv_div | exact inv_sta | exact inv_stb
    | exact inv_jmp | exact Hm | exact Hp | exact Hz | exact inv_ta
    | exact inv_rt | exact inv_ti ].
Qed.

Lemma fetch_decode_inv (s : cpu) : wf s -> tape_bytes s -> inv (fetch_decode s).
Proof.
  intros Hw Ht. unfold fetch_decode.
  pose proof (Z.mod_pos_bound (pc s + 1) 4096 ltac:(lia)).
  pose proof (mask12_bound (rd s (pc s))).
  destruct (z_in (pc s) (acs s)); unfold inv, wf, tape_bytes in *; cbn; intuition.
Qed.

(** One instruction cycle keeps [wf] and a tape of bytes. *)
Lemma exec_inv (s : cpu) :
  wf s -> tape_bytes s -> wf (fst (exec s)) /\ tape_bytes (fst (exec s)).
Proof.
  intros Hw Ht.
  destruct (z_in (pc s) (bpt s)) eqn:B.
  - rewrite (exec_breakpoint_eq s B). cbn. split; assumption.
  - rewrite (exec_dispatch_eq s B).
    pose proof (fetch_decode_inv s Hw Ht) as Hi.
    destruct (lookup_handler _) as [h|].
    + destruct (inv_handler h _ Hi) as [(H1 & _ & H3) _]. split; assumption.
    + cbn. split; apply Hi.
Qed.

Lemma reachable_inv (s : cpu) : reachable s -> wf s /\ tape_bytes s.
Proof.
  induction 1 as [s (Hp & Ha & Hb & Hm & Ht)|s _ [Hw Ht]|s p _ [Hw Ht] Hp].
  - split; [|exact Ht]. unfold wf. rewrite Hp, Ha, Hb.
    split; [lia|]. split; [split; cbn; lia|]. split; [split; cbn; lia|].
    eapply Forall_impl; [exact Hm|]. intros w Hw. apply word_ok_iff, Hw.
  - apply exec_inv; assumption.
  - split; [exact Hw|exact Hp].
Qed.

(** C9: from any reachable state, the state after the next instruction
    has 0 <= PC < 4096, A and B with sign 0 or 1 and a 24-bit magnitude,
    and every memory word with sign bit 0 or 1, a 24-bit magnitude and no
    bit set above the sign bit. *)
Theorem exec_preserves_wf (s : cpu) :
  reachable s -> wf s /\ wf (fst (exec s)).
Proof.
  intros H. destruct (reachable_inv s H) as [Hw Ht].
  split; [exact Hw|]. apply exec_inv; assumption.
Qed.

Lemma exec_preserves_wf_witness :
  reachable example_cpu /\ wf (fst (exec example_cpu)).
Proof.
  assert (H : reachable example_cpu).
  { apply reach_init. split; [reflexivity|]. split; [reflexivity|].
    split; [reflexivity|]. split; [|exact I].
    apply List.Forall_forall. intros x Hx. apply List.repeat_spec in Hx. subst x. lia. }
  split; [exact H|]. apply (exec_preserves_wf example_cpu H).
Defined.

(** ** 0x00 bytes on the tape (C10) *)

Lemma zi_refl (t : list Z) : zeros_inserted t t.
Proof. induction t; constructor; assumption. Qed.

Lemma zi_zeros (k : nat) (t t' : list Z) :
  zeros_inserted t t' -> zeros_inserted t (List.repeat 0 k ++ t').
Proof. intros H. induction k; cbn; [exact H|constructor; exact IHk]. Qed.

Lemma pad_zeros_inserted (ks : list nat) (t : list Z) :
  zeros_inserted t (pad_zeros ks t).
Proof.
  revert t. induction ks as [|k ks IH]; intros [|c t]; cbn.
  - constructor.
  - apply zi_refl.
  - rewrite <- (app_nil_r (List.repeat 0 k)). apply zi_zeros, zi_nil.
  - apply zi_zeros. constructor. apply IH.
Qed.

Lemma do_rt_loop_stop (t : list Z) (n : Z) (sg : option Z) (v : Z) :
  n <= 0 -> do_rt_loop t n sg v = (Some t, inr (default 0 sg + v)).
Proof.
  intros Hn. destruct t; cbn; destruct (Z.ltb_spec 0 n); solve [lia|reflexivity].
Qed.

(** [_do_rt] skips a 0x00 byte wherever it stands. *)
Lemma do_rt_loop_zi (t t' : list Z) :
  zeros_inserted t t' -> forall n sg v,
  snd (do_rt_loop t' n sg v) = snd (do_rt_loop t n sg v) /\
  ptr_rel (fst (do_rt_loop t n sg v)) (fst (do_rt_loop t' n sg v)).
Proof.
  induction 1 as [|c t t' H IH|t t' H IH]; intros n sg v.
  - cbn. destruct (0 <? n); cbn; split; auto. constructor.
  - cbn. destruct (0 <? n); [|split; [reflexivity|cbn; constructor; exact H]].
    destruct (64 <? c); [split; [reflexivity|exact H]|].
    destruct (c =? 0); [apply IH|]. destruct sg; apply IH.
  - destruct (Z.ltb_spec 0 n).
    + cbn [do_rt_loop]. destruct (Z.ltb_spec 0 n); [|lia]. cbn -[do_rt_loop]. apply IH.
    + rewrite !do_rt_loop_stop by lia. split; [reflexivity|]. cbn. constructor. exact H.
Qed.

Lemma set_ptr_same (s : cpu) (p : option (list Z)) : s.(ptr) = p -> set_ptr s p = s.
Proof. destruct s; cbn. intros ->. reflexivity. Qed.

Lemma set_ptr_set_ptr (s : cpu) (p q : option (list Z)) :
  set_ptr (set_ptr s p) q = set_ptr s q.
Proof. reflexivity. Qed.

Lemma ptr_rel_refl (p : option (list Z)) : ptr_rel p p.
Proof. destruct p; cbn; [apply zi_refl|exact I]. Qed.

Lemma rt_store_ptr (s : cpu) (p q : option (list Z)) (ad w : Z) :
  (let s2 := fst (wm ad w (set_ptr s q)) in set_addr s2 (Z.land (s2.(addr) + 1) 4095)) =
  set_ptr (let s1 := fst (wm ad w (set_ptr s p)) in set_addr s1 (Z.land (s1.(addr) + 1) 4095)) q /\
  (let s1 := fst (wm ad w (set_ptr s p)) in set_addr s1 (Z.land (s1.(addr) + 1) 4095)).(ptr) = p.
Proof. unfold wm, z_in. cbn. destruct (existsb _ (acs s)); split; reflexivity. Qed.

(** The RT loop reads the same words from tapes that differ by 0x00
    bytes, and leaves the rest of the tapes still so related. *)
Lemma rt_loop_zi (n : nat) : forall (s : cpu) (p' : option (list Z)),
  ptr_rel s.(ptr) p' ->
  snd (rt_loop n (set_ptr s p')) = snd (rt_loop n s) /\
  exists p'', fst (rt_loop n (set_ptr s p')) = set_ptr (fst (rt_loop n s)) p'' /\
              ptr_rel (fst (rt_loop n s)).(ptr) p''.
Proof.
  induction n as [|n IH]; intros s p' Hp.
  - cbn. split; [reflexivity|]. exists p'. split; [reflexivity|exact Hp].
  - destruct (ptr s) as [t|] eqn:E; destruct p' as [t'|]; cbn in Hp; try contradiction.
    + rewrite !rt_loop_S, (do_rt_eq s t E), (do_rt_eq (set_ptr s (Some t')) t' eq_refl).
      rewrite set_ptr_set_ptr.
      destruct (do_rt_loop_zi t t' Hp 4 None 0) as [Er Ep].
      destruct (do_rt_loop t 4 None 0) as [p1 r1], (do_rt_loop t' 4 None 0) as [p2 r2].
      cbn in Er, Ep. subst r2.
      destruct r1 as [[]|w]; cbn -[rt_loop wm set_ptr set_run set_addr];
        try (split; [reflexivity|]; exists p2; split; [reflexivity|exact Ep]).
      change (addr (set_ptr s (Some t'))) with (addr s).
      destruct (rt_store_ptr s p1 p2 (addr s) w) as [R1 R2].
      cbv zeta in R1, R2. rewrite R1.
      apply IH. rewrite R2. exact Ep.
    + rewrite (set_ptr_same s None E). split; [reflexivity|].
      exists (ptr (fst (rt_loop (S n) s))). split.
      * symmetry. apply set_ptr_same. reflexivity.
      * apply ptr_rel_refl.
Qed.

(** C10: RT skips a 0x00 byte wherever it stands on the tape, between
    words or inside a word (also between the sign byte and the digits).
    Reading a tape [t] or the same tape with 0x00 bytes inserted
    anywhere, RT stores the same words, ends with the same result and
    state, and leaves tapes that still differ only by inserted 0x00
    bytes. *)
Theorem rt_zeros_skipped (s : cpu) (t : list Z) (ks : list nat) :
  let s1 := set_ptr s (Some t) in
  let s2 := set_ptr s (Some (pad_zeros ks t)) in
  snd (inst_rt s2) = snd (inst_rt s1) /\
  (fst (inst_rt s2)).(mem) = (fst (inst_rt s1)).(mem) /\
  exists p, fst (inst_rt s2) = set_ptr (fst (inst_rt s1)) p /\
            ptr_rel (fst (inst_rt s1)).(ptr) p.
Proof.
  intros s1 s2.
  rewrite (inst_rt_some s2 (pad_zeros ks t) eq_refl), (inst_rt_some s1 t eq_refl).
  change (count s2) with (count s1).
  change s2 with (set_ptr s1 (Some (pad_zeros ks t))).
  destruct (rt_loop_zi (Z.to_nat (64 - count s1)) s1 (Some (pad_zeros ks t))
              (pad_zeros_inserted ks t)) as [Er [p [Es Ep]]].
  destruct (rt_loop _ (set_ptr s1 _)) as [x2 r2], (rt_loop _ s1) as [x1 r1].
  cbn in Er, Es, Ep. subst r2 x2.
  destruct r1 as [e|[]]; cbn; (split; [reflexivity|]); (split; [reflexivity|]);
    exists p; split; solve [reflexivity|exact Ep].
Qed.

(** ** Characters of a word (EXAMINE) and the TA output *)

Lemma field_1 (w : Z) : Z.shiftr (Z.shiftl w 6) 18 = Z.shiftr w 12.
Proof. rewrite Z.shiftr_shiftl_r by lia. reflexivity. Qed.

Lemma field_2 (w : Z) : Z.shiftr (Z.shiftl (Z.shiftl w 6) 6) 18 = Z.shiftr w 6.
Proof. rewrite Z.shiftl_shiftl, Z.shiftr_shiftl_r by lia. reflexivity. Qed.

Lemma field_3 (w : Z) : Z.shiftr (Z.shiftl (Z.shiftl (Z.shiftl w 6) 6) 6) 18 = w.
Proof. rewrite !Z.shiftl_shiftl, Z.shiftr_shiftl_r by lia. apply Z.shiftr_0_r. Qed.

Lemma word_codes_mask (w : Z) : word_codes (Z.land w MASK24) = word_codes w.
Proof.
  unfold word_codes. rewrite !Z.shiftr_land, <- !Z.land_assoc.
  reflexivity.
Qed.

Lemma chars_eq (w : Z) :
  chars w = map (fun c => nth (Z.to_nat c) abc_table 0) (word_codes w).
Proof. unfold chars. cbn [chars_loop app]. rewrite field_3, field_2, field_1. reflexivity. Qed.

Lemma mod4_offset (j r : Z) : 0 <= r < 4 -> (4 * j + r) mod 4 = r.
Proof. intros H. rewrite Z.add_comm, Z.mul_comm, Z.mod_add by lia. apply Z.mod_small. lia. Qed.

(** Four rounds of the TA loop print one word. *)
Lemma ta_loop_word (n : nat) (j wd : Z) (buf : list Z) (s : cpu) :
  ta_loop (4 + n) (4 * j) wd buf s =
  (let s1 := fst (rm s.(addr) s) in
   ta_loop n (4 * j + 1 + 1 + 1 + 1)
     (Z.shiftl (Z.shiftl (Z.shiftl (Z.shiftl (rd s s.(addr)) 6) 6) 6) 6)
     (buf ++ List.filter (fun c => negb (c =? 54)) (word_codes (rd s s.(addr))))
     (set_addr s1 (Z.land (s1.(addr) + 1) 4095))).
Proof.
  cbn [Nat.add ta_loop]. unfold bind, get, ret, next_addr, modify, rm.
  assert (E0 : (4 * j) mod 4 = 0) by (rewrite Z.mul_comm; apply Z.mod_mul; lia).
  assert (E1 : (4 * j + 1) mod 4 = 1) by (apply mod4_offset; lia).
  assert (E2 : (4 * j + 1 + 1) mod 4 = 2)
    by (replace (4 * j + 1 + 1) with (4 * j + 2) by lia; apply mod4_offset; lia).
  assert (E3 : (4 * j + 1 + 1 + 1) mod 4 = 3)
    by (replace (4 * j + 1 + 1 + 1) with (4 * j + 3) by lia; apply mod4_offset; lia).
  rewrite E0, E1, E2, E3. cbn.
  rewrite field_3, field_2, field_1. unfold word_codes, rd.
  destruct (Z.land (Z.shiftr (default 0 (mem s !! Z.to_nat (addr s))) 18) 63 =? 54);
  destruct (Z.land (Z.shiftr (default 0 (mem s !! Z.to_nat (addr s))) 12) 63 =? 54);
  destruct (Z.land (Z.shiftr (default 0 (mem s !! Z.to_nat (addr s))) 6) 63 =? 54);
  destruct (Z.land (default 0 (mem s !! Z.to_nat (addr s))) 63 =? 54);
  cbn; rewrite <- ?app_assoc, ?app_nil_r; reflexivity.
Qed.

Lemma next_addr_mod (ad : Z) : Z.land (ad + 1) 4095 = (ad + 1) mod 4096.
Proof. apply land_4095. Qed.

Lemma rm_fields (ad : Z) (s : cpu) :
  (fst (rm ad s)).(mem) = s.(mem) /\ (fst (rm ad s)).(addr) = s.(addr) /\
  (fst (rm ad s)).(tty) = s.(tty) /\ (fst (rm ad s)).(kbd) = s.(kbd) /\
  (fst (rm ad s)).(count) = s.(count).
Proof. unfold rm. cbn. destruct (z_in ad (acs s)); repeat split. Qed.

Lemma mod4096_succ (ad : Z) (k : nat) :
  ((ad + 1) mod 4096 + Z.of_nat k) mod 4096 = (ad + Z.of_nat (S k)) mod 4096.
Proof.
  rewrite Z.add_mod_idemp_l by lia. f_equal. lia.
Qed.

(** [k] words read by the TA loop, from the word at [addr] on. *)
Lemma ta_loop_words (k : nat) : forall (j wd : Z) (buf : list Z) (s : cpu),
  0 <= s.(addr) < 4096 ->
  snd (ta_loop (4 * k) (4 * j) wd buf s) =
    inr (buf ++ List.filter (fun c => negb (c =? 54))
                  (concat (map word_codes (read_words s.(mem) s.(addr) k)))) /\
  (fst (ta_loop (4 * k) (4 * j) wd buf s)).(mem) = s.(mem) /\
  (fst (ta_loop (4 * k) (4 * j) wd buf s)).(tty) = s.(tty) /\
  (fst (ta_loop (4 * k) (4 * j) wd buf s)).(addr) = (s.(addr) + Z.of_nat k) mod 4096.
Proof.
  induction k as [|k IH]; intros j wd buf s Ha.
  - cbn. rewrite app_nil_r, Z.add_0_r, Z.mod_small by lia. repeat split.
  - replace (4 * S k)%nat with (4 + 4 * k)%nat by lia.
    rewrite ta_loop_word.
    destruct (rm_fields (addr s) s) as (Rm & Ra & Rt & _).
    cbv zeta.
    replace (4 * j + 1 + 1 + 1 + 1) with (4 * (j + 1)) by lia.
    set (s1 := fst (rm (addr s) s)) in *.
    set (s2 := set_addr s1 (Z.land (addr s1 + 1) 4095)).
    assert (A2 : addr s2 = (addr s + 1) mod 4096)
      by (unfold s2; cbn [set_addr addr]; rewrite Ra; apply next_addr_mod).
    destruct (IH (j + 1) (Z.shiftl (Z.shiftl (Z.shiftl (Z.shiftl (rd s (addr s)) 6) 6) 6) 6)
                (buf ++ List.filter (fun c => negb (c =? 54)) (word_codes (rd s (addr s)))) s2)
      as (H1 & H2 & H3 & H4).
    { rewrite A2. apply Z.mod_pos_bound. lia. }
    assert (M2 : mem s2 = mem s) by (unfold s2; cbn [set_addr mem]; exact Rm).
    assert (T2 : tty s2 = tty s) by (unfold s2; cbn [set_addr tty]; exact Rt).
    rewrite M2, A2 in H1. rewrite M2 in H2. rewrite T2 in H3. rewrite A2 in H4.
    split; [|split; [exact H2|split; [exact H3|]]].
    + rewrite H1. cbn [read_words map concat]. rewrite List.filter_app, app_assoc.
      reflexivity.
    + rewrite H4. apply mod4096_succ.
Qed.

Lemma inst_ta_words (s : cpu) :
  0 <= s.(addr) < 4096 ->
  (fst (inst_ta s)).(tty) =
    s.(tty) ++ List.filter (fun c => negb (c =? 54))
                 (concat (map word_codes (read_words s.(mem) s.(addr) (Z.to_nat (64 - s.(count)))))) /\
  (fst (inst_ta s)).(mem) = s.(mem) /\
  (fst (inst_ta s)).(addr) = (s.(addr) + Z.of_nat (Z.to_nat (64 - s.(count)))) mod 4096 /\
  snd (inst_ta s) = inr ("next addr:     " +:+ fmt_oct 4 (fst (inst_ta s)).(addr)).
Proof.
  intros Ha. set (n := Z.to_nat (64 - s.(count))).
  destruct (ta_loop_words n 0 0 [] s Ha) as (H1 & H2 & H3 & H4).
  replace (4 * 0) with 0 in * by lia.
  unfold inst_ta, bind, get, modify, ret.
  replace (Z.to_nat ((64 - count s) * 4)) with (4 * n)%nat by (subst n; lia).
  destruct (ta_loop (4 * n) 0 0 [] s) as [s1 [e|buf]]; cbn in H1; [discriminate|].
  injection H1 as ->. cbn in *.
  split; [rewrite H3; reflexivity|]. split; [exact H2|]. split; [exact H4|reflexivity].
Qed.

(** The glyph the EXAMINE command shows for a 6-bit code. *)
Lemma chars_word_codes (w : Z) :
  chars w = map (fun c => nth (Z.to_nat c) abc_table 0) (word_codes (Z.land w MASK24)).
Proof. rewrite word_codes_mask. apply chars_eq. Qed.

(** ** Keyboard input (TI) *)

Lemma assoc_3 : assoc 3 tichars = None.
Proof. reflexivity. Qed.

Lemma ti_char_key (s : cpu) (k c : Z) (rest : list Z) :
  s.(kbd) = k :: rest -> assoc k tichars = Some c ->
  ti_char s = (set_kbd s rest, inr c).
Proof.
  intros Hk Hc. unfold ti_char. rewrite Hk. cbn [ti_char_loop].
  destruct (Z.eqb_spec k 3) as [->|_]; [rewrite assoc_3 in Hc; discriminate|].
  rewrite Hc. reflexivity.
Qed.

Lemma ti_loop_key (n : nat) (idx wd : Z) (s : cpu) (k c : Z) (rest : list Z) :
  s.(kbd) = k :: rest -> assoc k tichars = Some c ->
  ti_loop (S n) idx wd s =
  (if idx mod 4 =? 3 then
     let s1 := set_kbd s rest in
     let s2 := fst (wm s1.(addr) (wd * 64 + c) s1) in
     ti_loop n (idx + 1) 0 (set_addr s2 (Z.land (s2.(addr) + 1) 4095))
   else ti_loop n (idx + 1) (wd * 64 + c) (set_kbd s rest)).
Proof.
  intros Hk Hc. cbn [ti_loop]. unfold bind at 1. rewrite (ti_char_key s k c rest Hk Hc).
  rewrite lor_shiftl6 by exact (assoc_tichars k c Hc).
  destruct (idx mod 4 =? 3); [|reflexivity].
  unfold bind, get, next_addr, modify. cbn -[ti_loop].
  reflexivity.
Qed.

Lemma ti_loop_ctrl_c (n : nat) (idx wd : Z) (s : cpu) (rest : list Z) :
  s.(kbd) = 3 :: rest -> ti_loop (S n) idx wd s = (set_kbd s rest, inl KeyboardInterrupt).
Proof. intros Hk. cbn [ti_loop]. unfold bind, ti_char. rewrite Hk. reflexivity. Qed.

Lemma mod4_steps (j : Z) :
  (4 * j) mod 4 = 0 /\ (4 * j + 1) mod 4 = 1 /\ (4 * j + 1 + 1) mod 4 = 2 /\
  (4 * j + 1 + 1 + 1) mod 4 = 3.
Proof.
  split; [rewrite Z.mul_comm; apply Z.mod_mul; lia|].
  split; [apply mod4_offset; lia|].
  split; [replace (4 * j + 1 + 1) with (4 * j + 2) by lia; apply mod4_offset; lia|].
  replace (4 * j + 1 + 1 + 1) with (4 * j + 3) by lia; apply mod4_offset; lia.
Qed.

Lemma wm_fields (ad v : Z) (s : cpu) :
  (fst (wm ad v s)).(mem) = <[Z.to_nat ad := v]> s.(mem) /\
  (fst (wm ad v s)).(addr) = s.(addr) /\ (fst (wm ad v s)).(kbd) = s.(kbd) /\
  (fst (wm ad v s)).(tty) = s.(tty) /\ (fst (wm ad v s)).(count) = s.(count).
Proof. unfold wm. cbn. destruct (z_in ad (acs s)); repeat split. Qed.

(** Four keys typed in TI make one word. *)
Lemma ti_loop_word (m : nat) (j : Z) (k1 k2 k3 k4 c1 c2 c3 c4 : Z) (rest : list Z) (s : cpu) :
  assoc k1 tichars = Some c1 -> assoc k2 tichars = Some c2 ->
  assoc k3 tichars = Some c3 -> assoc k4 tichars = Some c4 ->
  s.(kbd) = k1 :: k2 :: k3 :: k4 :: rest ->
  exists s', ti_loop (4 + m) (4 * j) 0 s = ti_loop m (4 * (j + 1)) 0 s' /\
    s'.(mem) = <[Z.to_nat s.(addr) := ((c1 * 64 + c2) * 64 + c3) * 64 + c4]> s.(mem) /\
    s'.(kbd) = rest /\ s'.(addr) = (s.(addr) + 1) mod 4096.
Proof.
  intros H1 H2 H3 H4 Hk. destruct (mod4_steps j) as (E0 & E1 & E2 & E3).
  change (4 + m)%nat with (S (S (S (S m)))).
  rewrite (ti_loop_key _ _ _ s k1 c1 (k2 :: k3 :: k4 :: rest) Hk H1), E0. cbn -[ti_loop].
  erewrite (ti_loop_key _ _ _ _ k2 c2 (k3 :: k4 :: rest)); [|reflexivity|exact H2].
  rewrite E1. cbn -[ti_loop].
  erewrite (ti_loop_key _ _ _ _ k3 c3 (k4 :: rest)); [|reflexivity|exact H3].
  rewrite E2. cbn -[ti_loop].
  erewrite (ti_loop_key _ _ _ _ k4 c4 rest); [|reflexivity|exact H4].
  rewrite E3. cbn -[ti_loop wm].
  replace (4 * j + 1 + 1 + 1 + 1) with (4 * (j + 1)) by lia.
  replace (0 * 64 + c1) with c1 by lia.
  eexists. split; [reflexivity|].
  match goal with |- context [wm ?ad ?v ?s1] => destruct (wm_fields ad v s1) as (W1 & W2 & W3 & _) end.
  cbn [set_addr mem kbd addr]. rewrite W1, W2, W3. cbn.
  rewrite next_addr_mod. repeat split.
Qed.

Lemma ti_key_code (k : Z) : ti_key k -> exists c, assoc k tichars = Some c /\ ti_code k = c.
Proof.
  unfold ti_key, ti_code. destruct (assoc k tichars) as [c|]; [|contradiction].
  intros _. exists c. split; reflexivity.
Qed.

(** [k] groups of four valid keys typed in TI store [k] words. *)
Lemma ti_loop_groups (k : nat) : forall (m : nat) (j : Z) (keys tail : list Z) (s : cpu),
  Forall ti_key keys -> length keys = (4 * k)%nat -> s.(kbd) = keys ++ tail ->
  0 <= s.(addr) < 4096 ->
  exists s', ti_loop (4 * k + m) (4 * j) 0 s = ti_loop m (4 * (j + Z.of_nat k)) 0 s' /\
    s'.(mem) = write_words s.(addr) (pack_words (map ti_code keys)) s.(mem) /\
    s'.(kbd) = tail /\ s'.(addr) = (s.(addr) + Z.of_nat k) mod 4096.
Proof.
  induction k as [|k IH]; intros m j keys tail s Hv Hl Hk Ha.
  - destruct keys; [|discriminate]. exists s. cbn.
    rewrite !Z.add_0_r, Z.mod_small by lia. repeat split; auto.
  - destruct keys as [|k1 [|k2 [|k3 [|k4 keys']]]]; cbn in Hl; try lia.
    rewrite !List.Forall_cons_iff in Hv. destruct Hv as (V1 & V2 & V3 & V4 & Hv').
    destruct (ti_key_code _ V1) as (c1 & C1 & D1).
    destruct (ti_key_code _ V2) as (c2 & C2 & D2).
    destruct (ti_key_code _ V3) as (c3 & C3 & D3).
    destruct (ti_key_code _ V4) as (c4 & C4 & D4).
    replace (4 * S k + m)%nat with (4 + (4 * k + m))%nat by lia.
    destruct (ti_loop_word (4 * k + m) j k1 k2 k3 k4 c1 c2 c3 c4 (keys' ++ tail) s
                C1 C2 C3 C4 Hk) as (s1 & E & M1 & K1 & A1).
    rewrite E.
    destruct (IH m (j + 1) keys' tail s1 Hv' ltac:(cbn in Hl; lia) K1
                ltac:(rewrite A1; apply Z.mod_pos_bound; lia)) as (s2 & E2 & M2 & K2 & A2).
    exists s2. rewrite E2.
    replace (j + 1 + Z.of_nat k) with (j + Z.of_nat (S k)) by lia.
    split; [reflexivity|]. split; [|split; [exact K2|]].
    + rewrite M2, A1, M1. cbn [map pack_words write_words]. rewrite D1, D2, D3, D4.
      reflexivity.
    + rewrite A2, A1. apply mod4096_succ.
Qed.

(** A Control-C among fewer than four keys of a word stops TI, the word
    typed so far being dropped. *)
Lemma ti_loop_partial (p rest : list Z) (m : nat) (j : Z) (s : cpu) :
  Forall ti_key p -> (length p < 4)%nat -> (length p < m)%nat ->
  s.(kbd) = p ++ 3 :: rest ->
  snd (ti_loop m (4 * j) 0 s) = inl KeyboardInterrupt /\
  (fst (ti_loop m (4 * j) 0 s)).(mem) = s.(mem) /\
  (fst (ti_loop m (4 * j) 0 s)).(kbd) = rest /\
  (fst (ti_loop m (4 * j) 0 s)).(addr) = s.(addr).
Proof.
  intros Hv Hl Hm Hk. destruct (mod4_steps j) as (E0 & E1 & E2 & E3).
  destruct m as [|m]; [lia|].
  destruct p as [|k1 p].
  { rewrite (ti_loop_ctrl_c _ _ _ s rest Hk). repeat split. }
  apply List.Forall_cons_iff in Hv as [V1 Hv1].
  destruct (ti_key_code _ V1) as (c1 & C1 & _).
  rewrite (ti_loop_key _ _ _ s k1 c1 _ Hk C1), E0. cbn -[ti_loop].
  destruct m as [|m]; [cbn in Hm; lia|].
  destruct p as [|k2 p].
  { erewrite (ti_loop_ctrl_c _ _ _ _ rest); [|reflexivity]. repeat split. }
  apply List.Forall_cons_iff in Hv1 as [V2 Hv2].
  destruct (ti_key_code _ V2) as (c2 & C2 & _).
  erewrite (ti_loop_key _ _ _ _ k2 c2 _); [|reflexivity|exact C2].
  rewrite E1. cbn -[ti_loop].
  destruct m as [|m]; [cbn in Hm; lia|].
  destruct p as [|k3 p].
  { erewrite (ti_loop_ctrl_c _ _ _ _ rest); [|reflexivity]. repeat split. }
  apply List.Forall_cons_iff in Hv2 as [V3 Hv3].
  destruct (ti_key_code _ V3) as (c3 & C3 & _).
  erewrite (ti_loop_key _ _ _ _ k3 c3 _); [|reflexivity|exact C3].
  rewrite E2. cbn -[ti_loop].
  destruct m as [|m]; [cbn in Hm; lia|].
  destruct p as [|k4 p]; [|cbn in Hl; lia].
  erewrite (ti_loop_ctrl_c _ _ _ _ rest); [|reflexivity]. repeat split.
Qed.

Lemma inst_ti_eq (s : cpu) :
  inst_ti s =
  (let '(s1, r) := ti_loop (4 * Z.to_nat (64 - s.(count))) 0 0 s in
   match r with
   | inl e => (s1, inl e)
   | inr _ => (s1, inr ("next addr:     " +:+ fmt_oct 4 s1.(addr)))
   end).
Proof.
  unfold inst_ti, bind, get, ret.
  replace (Z.to_nat ((64 - count s) * 4)) with (4 * Z.to_nat (64 - count s))%nat by lia.
  destruct (ti_loop _ 0 0 s) as [s1 [e|[]]]; reflexivity.
Qed.

Lemma pack_words_app (q : nat) (xs ys : list Z) :
  length xs = (4 * q)%nat -> pack_words (xs ++ ys) = pack_words xs ++ pack_words ys.
Proof.
  revert xs. induction q as [|q IH]; intros xs Hl.
  - destruct xs; [reflexivity|discriminate].
  - destruct xs as [|x1 [|x2 [|x3 [|x4 xs]]]]; cbn in Hl; try lia.
    cbn. f_equal. apply IH. lia.
Qed.

Lemma pack_words_short (ys : list Z) : (length ys < 4)%nat -> pack_words ys = [].
Proof. intros H. destruct ys as [|y1 [|y2 [|y3 [|y4 ys]]]]; cbn in *; auto; lia. Qed.

(** TI with [4 n] valid keys at hand. *)
Lemma inst_ti_full (s : cpu) (keys rest : list Z) :
  Forall ti_key keys -> length keys = (4 * Z.to_nat (64 - s.(count)))%nat ->
  s.(kbd) = keys ++ rest -> 0 <= s.(addr) < 4096 ->
  (fst (inst_ti s)).(mem) = write_words s.(addr) (pack_words (map ti_code keys)) s.(mem) /\
  (fst (inst_ti s)).(kbd) = rest /\
  (fst (inst_ti s)).(addr) = (s.(addr) + Z.of_nat (Z.to_nat (64 - s.(count)))) mod 4096 /\
  (fst (inst_ti s)).(tty) = s.(tty) /\ (fst (inst_ti s)).(count) = s.(count) /\
  snd (inst_ti s) = inr ("next addr:     " +:+ fmt_oct 4 (fst (inst_ti s)).(addr)).
Proof.
  intros Hv Hl Hk Ha. rewrite inst_ti_eq.
  set (n := Z.to_nat (64 - count s)) in *.
  destruct (ti_loop_groups n 0 0 keys rest s Hv Hl Hk Ha) as (s1 & E & M1 & K1 & A1).
  rewrite Nat.add_0_r in E. replace (4 * 0) with 0 in E by lia. rewrite E. cbn [ti_loop].
  assert (Htt : forall t, tty s = t -> (fst (ti_loop (4 * n) 0 0 s)).(tty) = t).
  { intros t <-. apply (frame_ti_loop (fun s' => tty s' = tty s)); try (intros; assumption);
      try (intros; reflexivity); reflexivity. }
  assert (Hc : forall c, count s = c -> (fst (ti_loop (4 * n) 0 0 s)).(count) = c).
  { intros c <-. apply (frame_ti_loop (fun s' => count s' = count s)); try (intros; assumption);
      try (intros; reflexivity); reflexivity. }
  rewrite E in Htt, Hc. cbn [ti_loop ret fst] in Htt, Hc.
  cbn. split; [exact M1|]. split; [exact K1|]. split; [exact A1|].
  split; [apply Htt; reflexivity|]. split; [apply Hc; reflexivity|reflexivity].
Qed.

(** TI interrupted by Control-C. *)
Lemma inst_ti_ctrl_c (s : cpu) (keys rest : list Z) :
  Forall ti_key keys -> (length keys < 4 * Z.to_nat (64 - s.(count)))%nat ->
  s.(kbd) = keys ++ 3 :: rest -> 0 <= s.(addr) < 4096 ->
  snd (inst_ti s) = inl KeyboardInterrupt /\
  (fst (inst_ti s)).(mem) = write_words s.(addr) (pack_words (map ti_code keys)) s.(mem) /\
  (fst (inst_ti s)).(kbd) = rest /\
  (fst (inst_ti s)).(addr) = (s.(addr) + Z.of_nat (length keys / 4)) mod 4096.
Proof.
  intros Hv Hl Hk Ha. rewrite inst_ti_eq.
  set (n := Z.to_nat (64 - count s)) in *.
  set (q := (length keys / 4)%nat).
  pose proof (Nat.div_mod_eq (length keys) 4) as Hq.
  pose proof (Nat.mod_upper_bound (length keys) 4 ltac:(lia)) as Hr.
  fold q in Hq.
  set (r := (length keys mod 4)%nat) in *.
  rewrite <- (firstn_skipn (4 * q) keys) in Hv, Hk.
  rewrite <- app_assoc in Hk. apply Forall_app in Hv as [Hv1 Hv2].
  assert (L1 : length (firstn (4 * q) keys) = (4 * q)%nat) by (rewrite length_firstn; lia).
  assert (L2 : length (skipn (4 * q) keys) = r) by (rewrite length_skipn; lia).
  destruct (ti_loop_groups q (4 * n - 4 * q) 0 _ _ s Hv1 L1 Hk Ha) as (s1 & E & M1 & K1 & A1).
  replace (4 * q + (4 * n - 4 * q))%nat with (4 * n)%nat in E by lia.
  replace (4 * 0) with 0 in E by lia. rewrite E.
  destruct (ti_loop_partial (skipn (4 * q) keys) rest (4 * n - 4 * q) (0 + Z.of_nat q) s1
              Hv2 ltac:(lia) ltac:(lia) K1) as (R1 & R2 & R3 & R4).
  destruct (ti_loop _ _ _ s1) as [s2 [e|x]]; cbn in R1; [|discriminate].
  injection R1 as ->. cbn in R2, R3, R4 |- *.
  split; [reflexivity|]. split; [|split; [exact R3|rewrite R4, A1; reflexivity]].
  rewrite R2, M1. rewrite <- (firstn_skipn (4 * q) keys) at 2.
  rewrite map_app, (pack_words_app q) by (rewrite length_map; exact L1).
  rewrite (pack_words_short (map ti_code (skipn (4 * q) keys))) by (rewrite length_map; lia).
  rewrite app_nil_r. reflexivity.
Qed.

(** ** Reading back what TI stored *)

Lemma length_write_words (ad : Z) (ws m : list Z) :
  length (write_words ad ws m) = length m.
Proof.
  revert ad m. induction ws as [|w ws IH]; intros ad m; [reflexivity|].
  cbn. rewrite IH. apply length_insert.
Qed.

Lemma write_words_other (ws : list Z) : forall (ad b : Z) (m : list Z),
  0 <= ad < 4096 -> 0 <= b < 4096 ->
  (forall i, 0 <= i < Z.of_nat (length ws) -> (ad + i) mod 4096 <> b) ->
  write_words ad ws m !! Z.to_nat b = m !! Z.to_nat b.
Proof.
  induction ws as [|w ws IH]; intros ad b m Ha Hb Hne; [reflexivity|].
  cbn [write_words]. rewrite IH.
  - apply list_lookup_insert_ne.
    specialize (Hne 0 ltac:(cbn; lia)). rewrite Z.add_0_r, Z.mod_small in Hne by lia. lia.
  - apply Z.mod_pos_bound. lia.
  - exact Hb.
  - intros i Hi. rewrite Z.add_mod_idemp_l by lia.
    replace (ad + 1 + i) with (ad + (i + 1)) by lia.
    apply Hne. cbn [length] in *. lia.
Qed.

Lemma read_write_words (ws : list Z) : forall (ad : Z) (m : list Z),
  (length ws <= 4096)%nat -> length m = 4096%nat -> 0 <= ad < 4096 ->
  read_words (write_words ad ws m) ad (length ws) = ws.
Proof.
  induction ws as [|w ws IH]; intros ad m Hl Hm Ha; [reflexivity|].
  cbn [write_words read_words length]. f_equal.
  - rewrite write_words_other.
    + rewrite list_lookup_insert, decide_True; [reflexivity|lia].
    + apply Z.mod_pos_bound. lia.
    + exact Ha.
    + intros i Hi. rewrite Z.add_mod_idemp_l by lia.
      pose proof (Z.div_mod (ad + 1 + i) 4096 ltac:(lia)).
      pose proof (Z.mod_pos_bound (ad + 1 + i) 4096 ltac:(lia)).
      cbn [length] in Hl. lia.
  - apply IH; [cbn [length] in Hl; lia| |apply Z.mod_pos_bound; lia].
    rewrite length_insert. exact Hm.
Qed.

Lemma shiftr6_cons (x c : Z) : 0 <= c < 64 -> Z.shiftr (x * 64 + c) 6 = x.
Proof.
  intros Hc. rewrite Z.shiftr_div_pow2 by lia. change (2 ^ 6) with 64.
  rewrite Z.div_add_l by lia. rewrite Z.div_small by lia. lia.
Qed.

Lemma land63_cons (x c : Z) : 0 <= c < 64 -> Z.land (x * 64 + c) 63 = c.
Proof.
  intros Hc. change 63 with (Z.ones 6). rewrite Z.land_ones by lia.
  change (2 ^ 6) with 64. rewrite Z.add_comm, Z.mod_add by lia. apply Z.mod_small. lia.
Qed.

Lemma word_codes_pack (c1 c2 c3 c4 : Z) :
  0 <= c1 < 64 -> 0 <= c2 < 64 -> 0 <= c3 < 64 -> 0 <= c4 < 64 ->
  word_codes (((c1 * 64 + c2) * 64 + c3) * 64 + c4) = [c1; c2; c3; c4].
Proof.
  intros H1 H2 H3 H4. unfold word_codes.
  replace 18 with (6 + 6 + 6) by lia. replace 12 with (6 + 6) by lia.
  rewrite <- !Z.shiftr_shiftr by lia. rewrite !shiftr6_cons by lia.
  rewrite !land63_cons by lia.
  change 63 with (Z.ones 6). rewrite Z.land_ones by lia. rewrite Z.mod_small by (cbn; lia).
  reflexivity.
Qed.

Lemma codes_of_pack (k : nat) (cs : list Z) :
  Forall (fun c => 0 <= c < 64) cs -> length cs = (4 * k)%nat ->
  concat (map word_codes (pack_words cs)) = cs /\ length (pack_words cs) = k.
Proof.
  revert cs. induction k as [|k IH]; intros cs Hc Hl.
  - destruct cs; [split; reflexivity|discriminate].
  - destruct cs as [|c1 [|c2 [|c3 [|c4 cs]]]]; cbn in Hl; try lia.
    rewrite !List.Forall_cons_iff in Hc. destruct Hc as (H1 & H2 & H3 & H4 & Hc).
    destruct (IH cs Hc ltac:(lia)) as [E1 E2].
    cbn [pack_words map concat length]. rewrite word_codes_pack by assumption.
    rewrite E1, E2. split; reflexivity.
Qed.

Lemma assoc_in (k v : Z) (l : list (Z * Z)) : assoc k l = Some v -> List.In (k, v) l.
Proof.
  induction l as [|[k' v'] l IH]; cbn; [discriminate|].
  destruct (Z.eqb_spec k k') as [->|_]; [intros H; injection H as ->; left; reflexivity|].
  intros H. right. apply IH, H.
Qed.

(** TA prints back every key TI accepts but the cent sign, whose code
    54 TA skips. *)
Lemma ta_char_ti_code (k : Z) :
  ti_key k -> (ti_code k =? 54) = (k =? 162) /\ (k <> 162 -> ta_char (ti_code k) = k).
Proof.
  intros Hk. destruct (ti_key_code k Hk) as (c & C & ->).
  assert (T : forallb (fun p => Bool.eqb (snd p =? 54) (fst p =? 162) &&
                                ((fst p =? 162) || (ta_char (snd p) =? fst p))) tichars = true)
    by reflexivity.
  rewrite forallb_forall in T. specialize (T (k, c) (assoc_in _ _ _ C)). cbn in T.
  apply andb_prop in T as [T1 T2]. apply Bool.eqb_prop in T1. split; [exact T1|].
  intros Hne. destruct (Z.eqb_spec k 162) as [E|_]; [contradiction|].
  cbn in T2. apply Z.eqb_eq, T2.
Qed.

Lemma ta_chars_of_keys (keys : list Z) :
  Forall ti_key keys ->
  map ta_char (List.filter (fun c => negb (c =? 54)) (map ti_code keys)) =
  List.filter (fun k => negb (k =? 162)) keys.
Proof.
  induction keys as [|k keys IH]; intros Hv; [reflexivity|].
  apply List.Forall_cons_iff in Hv as [Hk Hv].
  destruct (ta_char_ti_code k Hk) as [E1 E2].
  cbn [map List.filter]. rewrite E1. destruct (Z.eqb_spec k 162) as [_|Hne]; cbn [negb map].
  - apply IH, Hv.
  - rewrite E2 by exact Hne. f_equal. apply IH, Hv.
Qed.

(** ** Keys without a code *)

Lemma ti_char_loop_junk (ks ks' : list Z) :
  junk_inserted ks ks' ->
  snd (ti_char_loop ks') = snd (ti_char_loop ks) /\
  junk_inserted (fst (ti_char_loop ks)) (fst (ti_char_loop ks')).
Proof.
  induction 1 as [|k ks ks' H [IH1 IH2]|k ks ks' H3 Hn H [IH1 IH2]].
  - split; [reflexivity|constructor].
  - cbn [ti_char_loop]. destruct (k =? 3); [split; [reflexivity|exact H]|].
    destruct (assoc k tichars); [split; [reflexivity|exact H]|].
    split; [exact IH1|exact IH2].
  - cbn [ti_char_loop]. destruct (Z.eqb_spec k 3); [contradiction|]. rewrite Hn.
    split; [exact IH1|exact IH2].
Qed.

Lemma ti_loop_S_inl (n : nat) (idx wd : Z) (s s1 : cpu) (e : exn) :
  ti_char s = (s1, inl e) -> ti_loop (S n) idx wd s = (s1, inl e).
Proof. intros H. cbn [ti_loop]. unfold bind at 1. rewrite H. reflexivity. Qed.

Lemma ti_loop_S_inr (n : nat) (idx wd : Z) (s s1 : cpu) (c : Z) :
  ti_char s = (s1, inr c) ->
  ti_loop (S n) idx wd s =
  (if idx mod 4 =? 3
   then ti_loop n (idx + 1) 0
          (set_addr (fst (wm s1.(addr) (Z.lor (Z.shiftl wd 6) c) s1))
             (Z.land ((fst (wm s1.(addr) (Z.lor (Z.shiftl wd 6) c) s1)).(addr) + 1) 4095))
   else ti_loop n (idx + 1) (Z.lor (Z.shiftl wd 6) c) s1).
Proof.
  intros H. cbn [ti_loop]. unfold bind at 1. rewrite H.
  destruct (idx mod 4 =? 3); [|reflexivity].
  unfold bind, get, next_addr, modify, wm. cbn -[ti_loop]. reflexivity.
Qed.

Lemma ti_char_set_kbd (s : cpu) (k : list Z) :
  ti_char (set_kbd s k) =
  (set_kbd s (fst (ti_char_loop k)), snd (ti_char_loop k)).
Proof. unfold ti_char. cbn. destruct (ti_char_loop k). reflexivity. Qed.

Lemma store_step_kbd (t : cpu) (kk : list Z) (v : Z) :
  set_addr (fst (wm (set_kbd t kk).(addr) v (set_kbd t kk)))
    (Z.land ((fst (wm (set_kbd t kk).(addr) v (set_kbd t kk))).(addr) + 1) 4095) =
  set_kbd (set_addr (fst (wm t.(addr) v t)) (Z.land ((fst (wm t.(addr) v t)).(addr) + 1) 4095)) kk.
Proof. unfold wm, z_in. cbn. destruct (existsb _ (acs t)); reflexivity. Qed.

Lemma set_kbd_set_kbd (s : cpu) (k k' : list Z) : set_kbd (set_kbd s k) k' = set_kbd s k'.
Proof. reflexivity. Qed.

Lemma ti_loop_junk (n : nat) : forall (idx wd : Z) (s : cpu) (k' : list Z),
  junk_inserted s.(kbd) k' ->
  snd (ti_loop n idx wd (set_kbd s k')) = snd (ti_loop n idx wd s) /\
  exists k'', fst (ti_loop n idx wd (set_kbd s k')) = set_kbd (fst (ti_loop n idx wd s)) k'' /\
    junk_inserted (fst (ti_loop n idx wd s)).(kbd) k''.
Proof.
  induction n as [|n IH]; intros idx wd s k' Hj.
  - split; [reflexivity|]. exists k'. split; [reflexivity|exact Hj].
  - destruct (ti_char_loop_junk _ _ Hj) as [J1 J2].
    assert (E : ti_char s = (set_kbd s (fst (ti_char_loop (kbd s))), snd (ti_char_loop (kbd s)))).
    { unfold ti_char. destruct (ti_char_loop (kbd s)). reflexivity. }
    assert (E' := ti_char_set_kbd s k'). rewrite J1 in E'.
    set (k1 := fst (ti_char_loop (kbd s))) in *.
    set (k1' := fst (ti_char_loop k')) in *.
    destruct (snd (ti_char_loop (kbd s))) as [e|c].
    + rewrite (ti_loop_S_inl _ _ _ _ _ _ E), (ti_loop_S_inl _ _ _ _ _ _ E').
      split; [reflexivity|]. exists k1'. split; [reflexivity|exact J2].
    + rewrite (ti_loop_S_inr _ _ _ _ _ _ E), (ti_loop_S_inr _ _ _ _ _ _ E').
      rewrite <- (set_kbd_set_kbd s k1 k1').
      destruct (idx mod 4 =? 3).
      * rewrite store_step_kbd. apply IH.
        cbn [set_addr kbd]. destruct (wm_fields (addr (set_kbd s k1)) (Z.lor (Z.shiftl wd 6) c)
                                        (set_kbd s k1)) as (_ & _ & K & _).
        rewrite K. exact J2.
      * apply IH. exact J2.
Qed.

(** Keys [_ti_char] rejects change nothing but the keys left over. *)
Lemma inst_ti_junk (s : cpu) (ks ks' : list Z) :
  junk_inserted ks ks' ->
  snd (inst_ti (set_kbd s ks')) = snd (inst_ti (set_kbd s ks)) /\
  exists k'', fst (inst_ti (set_kbd s ks')) = set_kbd (fst (inst_ti (set_kbd s ks))) k'' /\
    junk_inserted (fst (inst_ti (set_kbd s ks))).(kbd) k''.
Proof.
  intros Hj. rewrite !inst_ti_eq. cbn [count set_kbd].
  rewrite <- (set_kbd_set_kbd s ks ks').
  destruct (ti_loop_junk (4 * Z.to_nat (64 - count s)) 0 0 (set_kbd s ks) ks' Hj)
    as [R1 (k'' & R2 & R3)].
  destruct (ti_loop _ 0 0 (set_kbd s ks)) as [t [e|x]] eqn:T1.
  - destruct (ti_loop _ 0 0 (set_kbd (set_kbd s ks) ks')) as [t' [e'|x']] eqn:T2;
      cbn in R1, R2, R3 |- *; [|discriminate].
    injection R1 as ->. split; [reflexivity|]. exists k''. split; [exact R2|exact R3].
  - destruct (ti_loop _ 0 0 (set_kbd (set_kbd s ks) ks')) as [t' [e'|x']] eqn:T2;
      cbn in R1, R2, R3 |- *; [discriminate|].
    subst t'. split; [reflexivity|]. exists k''. split; [reflexivity|exact R3].
Qed.

Lemma ti_codes_range (keys : list Z) :
  Forall ti_key keys -> Forall (fun c => 0 <= c < 64) (map ti_code keys).
Proof.
  intros Hv. apply List.Forall_map. eapply List.Forall_impl; [|exact Hv].
  intros k Hk. destruct (ti_key_code k Hk) as (c & C & ->). exact (assoc_tichars k c C).
Qed.

(** What TA prints from the words TI stored. *)
Lemma ti_ta_glyphs (s : cpu) (keys rest : list Z) :
  Forall ti_key keys -> length keys = (4 * Z.to_nat (64 - s.(count)))%nat ->
  s.(kbd) = keys ++ rest -> 0 <= s.(addr) < 4096 -> 0 <= s.(count) ->
  length s.(mem) = 4096%nat ->
  map ta_char (fst (inst_ta (set_decode (fst (inst_ti s)) 44 s.(count) s.(addr)))).(tty) =
  map ta_char s.(tty) ++ List.filter (fun k => negb (k =? 162)) keys.
Proof.
  intros Hv Hl Hk Ha Hc Hm.
  destruct (inst_ti_full s keys rest Hv Hl Hk Ha) as (M1 & _ & _ & T1 & _ & _).
  set (s1 := fst (inst_ti s)) in *.
  destruct (inst_ta_words (set_decode s1 44 (count s) (addr s)) Ha) as (T2 & _).
  cbn [set_decode tty mem addr count] in T2. rewrite T2, T1, M1, map_app. f_equal.
  set (n := Z.to_nat (64 - count s)) in *.
  destruct (codes_of_pack n (map ti_code keys) (ti_codes_range keys Hv)
              ltac:(rewrite length_map; exact Hl)) as [C1 C2].
  rewrite <- C2, read_write_words.
  - rewrite C1. apply ta_chars_of_keys, Hv.
  - rewrite C2. subst n. lia.
  - exact Hm.
  - exact Ha.
Qed.

(** ** tape_dump *)

Lemma lstrip0_spec (buf : list Z) :
  exists k, buf = List.repeat 0 k ++ lstrip0 buf /\
    (lstrip0 buf = [] \/ exists c t, lstrip0 buf = c :: t /\ c <> 0).
Proof.
  induction buf as [|c buf IH].
  - exists 0%nat. split; [reflexivity|left; reflexivity].
  - cbn [lstrip0]. destruct (Z.eqb_spec c 0) as [->|Hc].
    + destruct IH as (k & E & H). exists (S k). split; [cbn; f_equal; exact E|exact H].
    + exists 0%nat. split; [reflexivity|]. right. exists c, buf. split; [reflexivity|exact Hc].
Qed.

(** The inner loop stops on a 0x00 byte, after the sign byte of a word. *)
Lemma dump_block_rest (buf : list Z) : forall (ad : Z) (evs : list dump_event) (rest : list Z),
  dump_block ad buf = (evs, inl rest) ->
  (exists pre, buf = pre ++ rest) /\ (exists t, rest = 0 :: t) /\
  (evs <> [] -> (length rest < length buf)%nat).
Proof.
  induction buf as [buf IH] using (induction_ltof1 _ (@length Z)); unfold ltof in IH.
  intros ad evs rest H.
  destruct buf as [|c r]; cbn [dump_block] in H; [discriminate|].
  destruct (Z.eqb_spec c 0) as [->|Hc0].
  { injection H as <- <-. split; [exists []; reflexivity|].
    split; [exists r; reflexivity|]. intros []; reflexivity. }
  destruct (c =? 64); cbn [negb] in H; [|discriminate].
  destruct r as [|b1 [|b2 [|b3 [|b4 r4]]]]; try discriminate;
    repeat match type of H with
           | context [if ?x =? 0 then _ else _] => destruct (x =? 0); [discriminate|]
           end; try discriminate.
  destruct (dump_block (ad + 1) r4) as [evs' x] eqn:E. injection H as <- ->.
  destruct (IH r4 ltac:(cbn; lia) (ad + 1) evs' rest E) as ([pre Hp] & Hz & _).
  split; [exists (c :: b1 :: b2 :: b3 :: b4 :: pre); rewrite Hp; reflexivity|].
  split; [exact Hz|]. intros _. rewrite Hp. cbn [length]. rewrite length_app. lia.
Qed.

Lemma dump_block_nonzero (ad c : Z) (t : list Z) (evs : list dump_event) (rest : list Z) :
  c <> 0 -> dump_block ad (c :: t) = (evs, inl rest) -> (length rest < S (length t))%nat.
Proof.
  intros Hc H. destruct (dump_block_rest _ _ _ _ H) as (_ & _ & Hl).
  apply Hl. intros ->. cbn [dump_block] in H.
  destruct (Z.eqb_spec c 0); [contradiction|].
  destruct (c =? 64); cbn [negb] in H; [|discriminate].
  destruct t as [|b1 [|b2 [|b3 [|b4 r4]]]]; try discriminate;
    repeat match type of H with
           | context [if ?x =? 0 then _ else _] => destruct (x =? 0); [discriminate|]
           end; try discriminate.
  destruct (dump_block (ad + 1) r4). discriminate.
Qed.

(** With fuel beyond the length of the file, the loops of tape_dump end
    before the fuel does. *)
Lemma dump_loop_ends (f : nat) : forall (ln : Z) (buf : list Z),
  (length buf < f)%nat -> dump_loop f ln buf <> None.
Proof.
  induction f as [|f IH]; intros ln buf Hl; [lia|].
  destruct buf as [|b0 buf']; [discriminate|].
  cbn [dump_loop].
  destruct (lstrip0_spec (b0 :: buf')) as (k & E & [Hs|(c & t & Hs & Hc)]);
    rewrite Hs; [discriminate|].
  destruct (dump_block 0 (c :: t)) as [evs [rest|e]] eqn:B; [|discriminate].
  pose proof (dump_block_nonzero _ _ _ _ _ Hc B) as Hr.
  assert (length (b0 :: buf') = k + S (length t))%nat as Lb
    by (rewrite E, Hs, length_app, List.repeat_length; reflexivity).
  specialize (IH (Z.of_nat (length rest)) rest ltac:(lia)).
  destruct (dump_loop f _ rest) as [[evs' e]|]; [discriminate|contradiction].
Qed.

Lemma repeat_0_last (k : nat) : exists pre, List.repeat 0 (S k) = pre ++ [0].
Proof.
  induction k as [|k [pre IH]]; [exists []; reflexivity|].
  exists (0 :: pre). change (List.repeat 0 (S (S k))) with (0 :: List.repeat 0 (S k)).
  rewrite IH. reflexivity.
Qed.

Lemma dump_loop_last (f : nat) : forall (ln : Z) (buf : list Z) (evs : list dump_event),
  dump_loop f ln buf = Some (evs, None) -> buf = [] \/ exists pre, buf = pre ++ [0].
Proof.
  induction f as [|f IH]; intros ln buf evs H.
  - destruct buf; [left; reflexivity|discriminate].
  - destruct buf as [|b0 buf']; [left; reflexivity|right].
    cbn [dump_loop] in H.
    destruct (lstrip0_spec (b0 :: buf')) as (k & E & [Hs|(c & t & Hs & Hc)]);
      rewrite Hs in H.
    + rewrite Hs, app_nil_r in E. destruct k as [|k]; [discriminate|].
      rewrite E. apply repeat_0_last.
    + destruct (dump_block 0 (c :: t)) as [evs1 [rest|e]] eqn:B; [|discriminate].
      destruct (dump_block_rest _ _ _ _ B) as ([pre Hp] & [t' Hz] & _).
      destruct (dump_loop f _ rest) as [[evs' e]|] eqn:L; [|discriminate].
      injection H as _ ->.
      destruct (IH _ _ _ L) as [->|[pre' Hp']]; [discriminate|].
      exists (List.repeat 0 k ++ pre ++ pre'). rewrite E, Hs, Hp, Hp', !app_assoc. reflexivity.
Qed.

Lemma digit_mod64 (b : Z) : 1 <= b <= 64 -> (if b =? 64 then 0 else b) = b mod 64.
Proof.
  intros Hb. destruct (Z.eqb_spec b 64) as [->|Hne]; [reflexivity|].
  rewrite Z.mod_small by lia. reflexivity.
Qed.

Lemma do_rt_loop_done (t : list Z) (sg : option Z) (v : Z) :
  do_rt_loop t 0 sg v = (Some t, inr (default 0 sg + v)).
Proof. destruct t; reflexivity. Qed.

(** RT reads a word [40 b1 b2 b3 b4] as tape_dump lists it. *)
Lemma do_rt_loop_word40 (b1 b2 b3 b4 : Z) (r4 : list Z) :
  1 <= b1 <= 64 -> 1 <= b2 <= 64 -> 1 <= b3 <= 64 -> 1 <= b4 <= 64 ->
  do_rt_loop (64 :: b1 :: b2 :: b3 :: b4 :: r4) 4 None 0 =
  (Some r4, inr ((((b1 mod 64) * 64 + b2 mod 64) * 64 + b3 mod 64) * 64 + b4 mod 64)).
Proof.
  intros H1 H2 H3 H4. rewrite <- !digit_mod64 by assumption. cbn.
  repeat match goal with
         | |- context [if ?x <? ?y then _ else _] => destruct (Z.ltb_spec x y); try lia
         | |- context [if ?x =? ?y then _ else _] => destruct (Z.eqb_spec x y); try lia
         end;
    change (4 - 1 - 1 - 1 - 1) with 0; rewrite do_rt_loop_done; cbn; f_equal; f_equal; lia.
Qed.

Lemma rt_loop_word (n : nat) (s : cpu) (t r : list Z) (w : Z) :
  s.(ptr) = Some t -> do_rt_loop t 4 None 0 = (Some r, inr w) ->
  exists s', rt_loop (S n) s = rt_loop n s' /\ s'.(ptr) = Some r /\
    s'.(mem) = <[Z.to_nat s.(addr) := w]> s.(mem) /\ s'.(addr) = (s.(addr) + 1) mod 4096.
Proof.
  intros Hp E. rewrite rt_loop_S, (do_rt_eq s t Hp), E. cbn -[rt_loop wm].
  eexists. split; [reflexivity|].
  unfold wm, z_in. cbn. destruct (existsb _ (acs s)); cbn;
    (split; [reflexivity|split; [reflexivity|apply next_addr_mod]]).
Qed.

(** RT stores the words tape_dump lists for a block. *)
Lemma rt_dump_block (t : list Z) : forall (ad : Z) (evs : list dump_event) (rest : list Z) (s : cpu),
  dump_block ad t = (evs, inl rest) -> Forall tape_ok t -> s.(ptr) = Some t ->
  0 <= s.(addr) < 4096 ->
  (fst (rt_loop (length (dump_words evs)) s)).(mem) = write_words s.(addr) (dump_words evs) s.(mem) /\
  (fst (rt_loop (length (dump_words evs)) s)).(ptr) = Some rest /\
  (fst (rt_loop (length (dump_words evs)) s)).(addr) =
    (s.(addr) + Z.of_nat (length (dump_words evs))) mod 4096 /\
  snd (rt_loop (length (dump_words evs)) s) = inr tt.
Proof.
  induction t as [t IH] using (induction_ltof1 _ (@length Z)); unfold ltof in IH.
  intros ad evs rest s H Hb Hp Ha.
  destruct t as [|c r]; cbn [dump_block] in H; [discriminate|].
  destruct (Z.eqb_spec c 0) as [->|Hc0].
  { injection H as <- <-. cbn. rewrite Z.add_0_r, Z.mod_small by lia.
    split; [reflexivity|]. split; [exact Hp|]. split; reflexivity. }
  destruct (Z.eqb_spec c 64) as [->|]; cbn [negb] in H; [|discriminate].
  destruct r as [|b1 r]; [discriminate|].
  destruct (b1 =? 0) eqn:Z1; [discriminate|].
  destruct r as [|b2 r]; [discriminate|].
  destruct (b2 =? 0) eqn:Z2; [discriminate|].
  destruct r as [|b3 r]; [discriminate|].
  destruct (b3 =? 0) eqn:Z3; [discriminate|].
  destruct r as [|b4 r4]; [discriminate|].
  destruct (b4 =? 0) eqn:Z4; [discriminate|].
  apply Z.eqb_neq in Z1, Z2, Z3, Z4.
  destruct (dump_block (ad + 1) r4) as [evs' x] eqn:E. injection H as <- ->.
  rewrite !List.Forall_cons_iff in Hb. unfold tape_ok in Hb.
  destruct Hb as (_ & B1 & B2 & B3 & B4 & Hb).
  cbn [dump_words length].
  destruct (rt_loop_word (length (dump_words evs')) s _ r4 _ Hp
              (do_rt_loop_word40 b1 b2 b3 b4 r4 ltac:(lia) ltac:(lia) ltac:(lia) ltac:(lia)))
    as (s' & R & P' & M' & A').
  rewrite R.
  destruct (IH r4 ltac:(cbn; lia) (ad + 1) evs' rest s' E Hb P'
              ltac:(rewrite A'; apply Z.mod_pos_bound; lia)) as (H1 & H2 & H3 & H4).
  split; [rewrite H1, M', A'; reflexivity|]. split; [exact H2|]. split; [|exact H4].
  rewrite H3, A'. apply mod4096_succ.
Qed.

(** ** Exceptions that escape [exec] *)




















(** ** [run_virtual_machine] *)

Lemma rvm_loop_stopped (f : nat) ni c held res (s : cpu) :
  s.(run) = false -> rvm_loop f ni c held res s = Some (s, inr res).
Proof. intros H. destruct f; cbn; rewrite H; reflexivity. Qed.

Lemma rvm_loop_S (f : nat) ni c held res (s : cpu) :
  s.(run) = true ->
  rvm_loop (S f) ni c held res s =
  let '(s1, r) := exec (fst (rm s.(pc) s)) in
  match r with
  | inr res' => rvm_loop f ni (c + 1) None res' (rvm_post ni held (c + 1) s1)
  | inl KeyboardInterrupt =>
      rvm_loop f ni c None "Control-C" (rvm_post ni held c (set_run s1 false))
  | inl e => Some (s1, inl e)
  end.
Proof.
  intros H. cbn [rvm_loop]. rewrite H.
  destruct (rm (pc s) s) as [s0 r0]. cbn [fst].
  destruct (exec s0) as [s1 [[]|res']]; reflexivity.
Qed.

Lemma rm_icount_bpt (ad : Z) (s : cpu) :
  (fst (rm ad s)).(instruction_count) = s.(instruction_count) /\
  (fst (rm ad s)).(bpt) = s.(bpt) /\ (fst (rm ad s)).(pc) = s.(pc).
Proof. unfold rm. destruct (z_in ad (acs s)); repeat split. Qed.

Lemma handler_icount (h : handler) (s : cpu) :
  (fst (run_handler h s)).(instruction_count) = s.(instruction_count).
Proof.
  apply (frame_handler (fun t => t.(instruction_count) = s.(instruction_count)));
    try (intros; assumption); reflexivity.
Qed.


Lemma exec_icount (s : cpu) :
  (fst (exec s)).(instruction_count) =
  if z_in s.(pc) s.(bpt) then s.(instruction_count) else s.(instruction_count) + 1.
Proof.
  destruct (z_in (pc s) (bpt s)) eqn:Eb.
  - rewrite (exec_breakpoint_eq s Eb). reflexivity.
  - rewrite (exec_dispatch_eq s Eb).
    assert (E : (fetch_decode s).(instruction_count) = s.(instruction_count) + 1)
      by (unfold fetch_decode; destruct (z_in (pc s) (acs s)); reflexivity).
    destruct (lookup_handler _) as [h|]; [|exact E].
    rewrite handler_icount. exact E.
Qed.


Lemma rvm_post_icount ni held c (t : cpu) :
  (rvm_post ni held c t).(instruction_count) = t.(instruction_count).
Proof.
  unfold rvm_post. destruct held, ni as [n|]; try destruct (n <=? c); reflexivity.
Qed.

Lemma rvm_loop_bound (f : nat) : forall (n c : Z) (held : option Z) (res : string) (s : cpu),
  c < n -> (Z.to_nat (n - c) <= f)%nat ->
  exists s' r, rvm_loop f (Some n) c held res s = Some (s', r) /\
    s.(instruction_count) <= s'.(instruction_count) <= s.(instruction_count) + (n - c).
Proof.
  induction f as [|f IH]; intros n c held res s Hc Hf.
  - destruct (run s) eqn:R; [lia|].
    rewrite rvm_loop_stopped by exact R. eexists _, _. split; [reflexivity|lia].
  - destruct (run s) eqn:R.
    2:{ rewrite rvm_loop_stopped by exact R. eexists _, _. split; [reflexivity|lia]. }
    rewrite rvm_loop_S by exact R.
    pose proof (exec_icount (fst (rm (pc s) s))) as Ei.
    destruct (rm_icount_bpt (pc s) s) as [Ri _].
    assert (Hi : s.(instruction_count) <= (fst (exec (fst (rm (pc s) s)))).(instruction_count)
                 <= s.(instruction_count) + 1)
      by (rewrite Ei; destruct (z_in _ _); lia).
    destruct (exec (fst (rm (pc s) s))) as [s1 r]. cbn [fst] in Hi.
    destruct r as [e|res'].
    + destruct e;
        try (eexists _, _; split; [reflexivity|lia]).
      rewrite rvm_loop_stopped.
      * eexists _, _. split; [reflexivity|]. rewrite rvm_post_icount. cbn. lia.
      * unfold rvm_post. destruct held; cbn; destruct (n <=? c); reflexivity.
    + destruct (Z.le_gt_cases n (c + 1)) as [Hn|Hn].
      * rewrite rvm_loop_stopped.
        -- eexists _, _. split; [reflexivity|]. rewrite rvm_post_icount. lia.
        -- unfold rvm_post. replace (n <=? c + 1) with true by lia.
           destruct held; reflexivity.
      * destruct (IH n (c + 1) None res' (rvm_post (Some n) held (c + 1) s1))
          as (s' & r' & E & B); [lia|lia|].
        rewrite E. eexists _, _. split; [reflexivity|].
        rewrite rvm_post_icount in B. lia.
Qed.

Lemma z_in_In (x : Z) (l : list Z) : z_in x l = true <-> In x l.
Proof.
  unfold z_in. rewrite existsb_exists. split.
  - intros (y & Hy & E). apply Z.eqb_eq in E. subst. exact Hy.
  - intros H. exists x. split; [exact H|apply Z.eqb_refl].
Qed.


Lemma list_remove_notin (x : Z) (l : list Z) : NoDup l -> ~ In x (list_remove x l).
Proof.
  induction l as [|y l IH]; cbn; intros Nd; [intros []|].
  apply NoDup_cons in Nd as [Ny Nd].
  destruct (Z.eqb_spec x y) as [->|Ne]; [rewrite <- list_elem_of_In; exact Ny|].
  intros [E|H]; [congruence|exact (IH Nd H)].
Qed.



(** ** Supervisor commands *)

Lemma set_bpt_eta (s : cpu) : set_bpt s s.(bpt) = s.
Proof. destruct s; reflexivity. Qed.

Lemma list_remove_snoc (x : Z) (l : list Z) : ~ In x l -> list_remove x (l ++ [x]) = l.
Proof.
  induction l as [|y l IH]; cbn; intros H.
  - rewrite Z.eqb_refl. reflexivity.
  - destruct (Z.eqb_spec x y) as [->|Ne]; [exfalso; apply H; left; reflexivity|].
    rewrite IH; [reflexivity|]. intros Hi. apply H. right. exact Hi.
Qed.

Lemma list_remove_sublist (x : Z) (l : list Z) : sublist (list_remove x l) l.
Proof.
  induction l as [|y l IH]; cbn; [constructor|].
  destruct (x =? y); [apply sublist_cons, reflexivity|apply sublist_skip, IH].
Qed.

Lemma NoDup_snoc_new (x : Z) (l : list Z) :
  NoDup l -> z_in x l = false -> NoDup (l ++ [x]).
Proof.
  intros Nd Hz. apply NoDup_app. split; [exact Nd|]. split; [|apply NoDup_singleton].
  intros y Hy Hy'. apply list_elem_of_singleton in Hy'. subst y.
  apply list_elem_of_In, z_in_In in Hy. congruence.
Qed.

Lemma lor_shiftl24 (sg v : Z) :
  0 <= sg -> 0 <= v < 2 ^ 24 -> Z.lor (Z.shiftl sg 24) v = Z.shiftl sg 24 + v.
Proof.
  intros Hs Hv. rewrite <- Z.lxor_lor, <- Z.add_nocarry_lxor; [reflexivity| |];
  apply Z.bits_inj'; intros n Hn; rewrite Z.land_spec, Z.bits_0;
  (destruct (Z.lt_ge_cases n 24);
   [rewrite Z.shiftl_spec_low by lia; reflexivity
   |rewrite <- (Z.mod_small v (2 ^ 24)) by lia;
    rewrite Z.mod_pow2_bits_high by lia; apply andb_false_r]).
Qed.

Lemma neg_mask24 (v : Z) : - 16777216 < v < 0 -> Z.land (Z.lnot v + 1) MASK24 = - v.
Proof.
  intros Hv. rewrite land_MASK24. replace (Z.lnot v + 1) with (- v)
    by (rewrite Z.lnot_eq_pred_opp; lia).
  apply Z.mod_small. lia.
Qed.

Lemma deposit_value_range (int8 : string -> option Z) (x0 x1 : string) (sg v : Z) :
  deposit_value int8 x0 x1 = Some (sg, v) ->
  (sg = 0 \/ sg = 1) /\ 0 <= v < 2 ^ 24 /\
  (String.eqb x0 "pc" = true -> sg = 0 /\ v <= 4095).
Proof.
  unfold deposit_value. destruct (int8 x1) as [w|]; [|discriminate].
  destruct ((- 16777216 <? w) && (w <? 16777216)) eqn:R; cbn [negb]; [|discriminate].
  apply andb_true_iff in R as [R1 R2]. apply Z.ltb_lt in R1, R2.
  destruct (String.eqb x0 "pc") eqn:Ep.
  - destruct ((0 <=? w) && (w <=? 4095)) eqn:R'; cbn [negb]; [|discriminate].
    apply andb_true_iff in R' as [R3 R4]. apply Z.leb_le in R3, R4.
    destruct (String.prefix "-" x1); cbn; [discriminate|].
    intros H. injection H as <- <-. lia.
  - destruct (Z.ltb_spec w 0) as [Hw|Hw].
    + intros H. injection H as <- <-. rewrite neg_mask24 by lia.
      split; [right; reflexivity|]. split; [lia|discriminate].
    + intros H. injection H as <- <-.
      split; [destruct (String.prefix "-" x1); [right|left]; reflexivity|].
      split; [lia|discriminate].
Qed.

Lemma deposit_mem_word (sg v : Z) :
  (sg = 0 \/ sg = 1) -> 0 <= v < 2 ^ 24 -> word_ok (Z.lor (Z.shiftl sg 24) v).
Proof.
  intros Hs Hv. rewrite lor_shiftl24 by lia. apply word_ok_iff, word_bound; assumption.
Qed.

Lemma wm_mem (ad w : Z) (s : cpu) :
  (fst (wm ad w s)).(mem) = <[Z.to_nat ad := w]> s.(mem) /\
  (fst (wm ad w s)).(pc) = s.(pc) /\ (fst (wm ad w s)).(a) = s.(a) /\
  (fst (wm ad w s)).(b) = s.(b).
Proof. unfold wm. destruct (z_in ad (acs s)); repeat split. Qed.

Lemma parse_addr_range (int8 : string -> option Z) (x : string) (ad : Z) :
  parse_addr int8 x = Some ad -> 0 <= ad < 4096.
Proof.
  unfold parse_addr. destruct (int8 x) as [v|]; [|discriminate].
  destruct ((0 <=? v) && (v <=? 4095)) eqn:R; [|discriminate].
  intros H. injection H as <-. apply andb_true_iff in R as [R1 R2].
  apply Z.leb_le in R1, R2. lia.
Qed.

Lemma examine_after_wm (ad sg val : Z) (s : cpu) :
  0 <= ad < 4096 -> length s.(mem) = 4096%nat -> (sg = 0 \/ sg = 1) -> 0 <= val < 2 ^ 24 ->
  snd (examine_word ad (fst (wm ad (Z.lor (Z.shiftl sg 24) val) s))) =
  inr (reg_str sg val, chars val).
Proof.
  intros Ha Hm Hs Hv. destruct (wm_mem ad (Z.lor (Z.shiftl sg 24) val) s) as (Mm & _).
  unfold examine_word, bind, ret, rm. cbn [snd]. rewrite Mm.
  rewrite list_lookup_insert, decide_True by (split; [reflexivity|lia]). cbn [default].
  rewrite lor_shiftl24 by lia.
  destruct (word_fields sg val Hs Hv) as [F1 F2].
  unfold reg_str, id. rewrite F1, (chars_word_codes (Z.shiftl sg 24 + val)), F2.
  rewrite (chars_word_codes val), land_MASK24, Z.mod_small by lia. reflexivity.
Qed.

Lemma deposit_value_mem (int8 : string -> option Z) (x0 x1 : string) (v : Z) :
  String.eqb x0 "pc" = false -> int8 x1 = Some v -> - 16777216 < v < 16777216 ->
  deposit_value int8 x0 x1 =
  Some (if String.prefix "-" x1 || (v <? 0) then 1 else 0, Z.abs v).
Proof.
  intros Hx Hv Hr. unfold deposit_value. rewrite Hv.
  replace ((- 16777216 <? v) && (v <? 16777216)) with true
    by (symmetry; apply andb_true_iff; split; apply Z.ltb_lt; lia).
  cbn [negb]. rewrite Hx. destruct (Z.ltb_spec v 0) as [Hn|Hn].
  - rewrite orb_true_r, neg_mask24, Z.abs_neq by lia. reflexivity.
  - rewrite orb_false_r, Z.abs_eq by lia. reflexivity.
Qed.

Lemma NoDup_do_break (int8 : string -> option Z) (args : list string) (s : cpu) :
  NoDup s.(bpt) -> NoDup s.(acs) ->
  NoDup (do_break int8 args s).(bpt) /\ NoDup (do_break int8 args s).(acs).
Proof.
  intros Nb Na. unfold do_break. destruct args as [|x args]; [auto|].
  destruct (parse_addr int8 x) as [ad|]; [|auto].
  destruct (z_in ad (bpt s)) eqn:E; cbn; [auto|].
  split; [apply NoDup_snoc_new|]; assumption.
Qed.

Lemma NoDup_do_acstop (int8 : string -> option Z) (args : list string) (s : cpu) :
  NoDup s.(bpt) -> NoDup s.(acs) ->
  NoDup (do_acstop int8 args s).(bpt) /\ NoDup (do_acstop int8 args s).(acs).
Proof.
  intros Nb Na. unfold do_acstop. destruct args as [|x args]; [auto|].
  destruct (parse_addr int8 x) as [ad|]; [|auto].
  destruct (z_in ad (acs s)) eqn:E; cbn; [auto|].
  split; [|apply NoDup_snoc_new]; assumption.
Qed.

Lemma NoDup_do_clear (int8 : string -> option Z) (args : list string) (s : cpu) :
  NoDup s.(bpt) -> NoDup s.(acs) ->
  NoDup (do_clear int8 args s).(bpt) /\ NoDup (do_clear int8 args s).(acs).
Proof.
  intros Nb Na. unfold do_clear. destruct args as [|x [|y args]]; try auto.
  destruct (parse_addr int8 x) as [ad|]; [|auto].
  destruct (z_in ad (bpt s)); cbn; [|auto].
  split; [|exact Na]. eapply sublist_NoDup; [exact Nb|apply list_remove_sublist].
Qed.

Lemma NoDup_do_aclear (int8 : string -> option Z) (args : list string) (s : cpu) :
  NoDup s.(bpt) -> NoDup s.(acs) ->
  NoDup (do_aclear int8 args s).(bpt) /\ NoDup (do_aclear int8 args s).(acs).
Proof.
  intros Nb Na. unfold do_aclear. destruct args as [|x [|y args]]; try auto.
  destruct (parse_addr int8 x) as [ad|]; [|auto].
  destruct (z_in ad (acs s)); cbn; [|auto].
  split; [exact Nb|]. eapply sublist_NoDup; [exact Na|apply list_remove_sublist].
Qed.

Lemma set_acs_eta (s : cpu) : set_acs s s.(acs) = s.
Proof. destruct s; reflexivity. Qed.

Lemma lstrip0_zeros (k : nat) (c : Z) (rest : list Z) :
  c <> 0 -> lstrip0 (List.repeat 0 k ++ c :: rest) = c :: rest.
Proof.
  intros Hc. induction k as [|k IH]; cbn [List.repeat app lstrip0].
  - apply Z.eqb_neq in Hc. rewrite Hc. reflexivity.
  - exact IH.
Qed.

(** ** Further properties of the emulator, the supervisor and tape_dump *)

(** EXAMINE: [_chars(wd)] shows the four 6-bit fields of bits 23..0 of the
    word, high field first, each through the glyph table; the sign bits
    above bit 23 do not change the characters. *)
Theorem examine_chars_fields (w : Z) :
  chars w = map (fun c => nth (Z.to_nat c) abc_table 0)
              [Z.land (Z.shiftr w 18) 63; Z.land (Z.shiftr w 12) 63;
               Z.land (Z.shiftr w 6) 63; Z.land w 63] /\
  chars w = chars (Z.land w MASK24).
Proof.
  split; [apply chars_eq|].
  rewrite (chars_word_codes w), (chars_word_codes (Z.land w MASK24)), !word_codes_mask.
  reflexivity.
Qed.

(** DEPOSIT then EXAMINE of a memory address: after [D addr v] with an
    octal value [-2^24 < v < 2^24], examining [addr] shows the sign "-"
    when the value was typed with a leading "-" or is negative, else "+",
    then the magnitude |v| in eight octal digits, and the characters of
    |v|. *)
Theorem deposit_then_examine (int8 : string -> option Z) (x0 x1 : string) (ad v : Z) (s : cpu) :
  parse_addr int8 x0 = Some ad -> int8 x1 = Some v -> - 16777216 < v < 16777216 ->
  String.eqb (lower x0) "a" = false -> String.eqb (lower x0) "b" = false ->
  String.eqb (lower x0) "pc" = false -> length s.(mem) = 4096%nat ->
  snd (examine_word ad (do_deposit int8 [x0; x1] s)) =
  inr (reg_str (if String.prefix "-" x1 || (v <? 0) then 1 else 0) (Z.abs v), chars (Z.abs v)).
Proof.
  intros Hp Hv Hr Ha Hb Hpc Hm.
  assert (Hx : String.eqb x0 "pc" = false).
  { destruct (String.eqb_spec x0 "pc") as [->|]; [discriminate Hpc|reflexivity]. }
  unfold do_deposit. rewrite (deposit_value_mem int8 x0 x1 v Hx Hv Hr), Ha, Hb, Hpc, Hp.
  apply examine_after_wm; [apply (parse_addr_range int8 x0 ad Hp)|exact Hm| |lia].
  destruct (String.prefix "-" x1 || (v <? 0)); [right|left]; reflexivity.
Qed.

Lemma deposit_then_examine_witness :
  snd (examine_word 5 (do_deposit (fun x => if String.eqb x "5" then Some 5 else Some (-5))
                                  ["5"; "-5"] example_cpu)) =
  inr (reg_str 1 5, chars 5).
Proof.
  apply (deposit_then_examine (fun x => if String.eqb x "5" then Some 5 else Some (-5))
           "5" "-5" 5 (-5) example_cpu);
    first [reflexivity | lia].
Defined.

(** DEPOSIT keeps the machine well formed (PC in 0..4095, registers a sign
    bit and a 24-bit magnitude, memory words of 25 bits), provided the
    register name is not a mixed-case spelling of "pc": the range check
    of the PC value is made only when the name is exactly "pc". *)
Theorem deposit_keeps_wf (int8 : string -> option Z) (x0 x1 : string) (s : cpu) :
  wf s -> String.eqb (lower x0) "pc" = String.eqb x0 "pc" ->
  wf (do_deposit int8 [x0; x1] s).
Proof.
  intros Hw Hl. unfold do_deposit.
  destruct (deposit_value int8 x0 x1) as [[sg v]|] eqn:D; [|exact Hw].
  destruct (deposit_value_range int8 x0 x1 sg v D) as (Hs & Hv & Hpc).
  destruct Hw as (Wp & Wa & Wb & Wm).
  destruct (String.eqb (lower x0) "a").
  { unfold wf, reg_ok in *; cbn [set_a pc a b mem fst snd]. tauto. }
  destruct (String.eqb (lower x0) "b").
  { unfold wf, reg_ok in *; cbn [set_b pc a b mem fst snd]. tauto. }
  destruct (String.eqb (lower x0) "pc") eqn:E.
  { destruct (Hpc (eq_sym Hl)) as [_ Hv']. unfold wf. cbn [set_pc pc a b mem].
    split; [lia|]. tauto. }
  destruct (parse_addr int8 x0) as [ad|]; [|split; tauto].
  destruct (wm_mem ad (Z.lor (Z.shiftl sg 24) v) s) as (M1 & P1 & A1 & B1).
  unfold wf. rewrite M1, P1, A1, B1. split; [exact Wp|]. split; [exact Wa|].
  split; [exact Wb|]. apply Forall_insert; [exact Wm|]. apply deposit_mem_word; assumption.
Qed.

Lemma deposit_keeps_wf_witness :
  wf (do_deposit (fun _ => Some 5) ["A"; "5"] (mkCpu [] 0 (0, 0) (0, 0) 0 None [] [] true 0 0 0 [] [])).
Proof.
  apply deposit_keeps_wf; [|reflexivity].
  unfold wf, reg_ok. cbn. split; [lia|]. split; [split; [left; reflexivity|lia]|].
  split; [split; [left; reflexivity|lia]|constructor].
Defined.

(** DEPOSIT with a register name that lowercases to "pc" but is not
    exactly "pc" (for example "PC") skips the PC range and sign checks:
    any octal value with -2^24 < v < 2^24 sets the PC to |v|, also when
    |v| > 0o7777. *)
Theorem deposit_mixed_case_pc (int8 : string -> option Z) (x0 x1 : string) (v : Z) (s : cpu) :
  String.eqb x0 "pc" = false -> String.eqb (lower x0) "pc" = true ->
  int8 x1 = Some v -> - 16777216 < v < 16777216 ->
  do_deposit int8 [x0; x1] s = set_pc s (Z.abs v).
Proof.
  intros Hx Hl Hv Hr. unfold do_deposit.
  rewrite (deposit_value_mem int8 x0 x1 v Hx Hv Hr).
  apply String.eqb_eq in Hl. rewrite Hl. reflexivity.
Qed.

Lemma deposit_mixed_case_pc_witness :
  do_deposit (fun _ => Some 4096) ["PC"; "10000"] example_cpu = set_pc example_cpu 4096 /\
  ~ (0 <= 4096 < 4096).
Proof.
  split; [|lia].
  apply (deposit_mixed_case_pc (fun _ => Some 4096) "PC" "10000" 4096 example_cpu);
    first [reflexivity | lia].
Defined.

(** DEPOSIT with the register name exactly "pc" either leaves the state
    unchanged (invalid data value) or sets the PC to a value 0..4095 typed
    without a leading "-". *)
Theorem deposit_pc_checked (int8 : string -> option Z) (x1 : string) (s : cpu) :
  do_deposit int8 ["pc"; x1] s = s \/
  exists v, int8 x1 = Some v /\ 0 <= v <= 4095 /\ String.prefix "-" x1 = false /\
    do_deposit int8 ["pc"; x1] s = set_pc s v.
Proof.
  unfold do_deposit, deposit_value.
  destruct (int8 x1) as [v|]; [|left; reflexivity].
  destruct ((- 16777216 <? v) && (v <? 16777216)); cbn [negb]; [|left; reflexivity].
  change (String.eqb "pc" "pc") with true. cbn iota.
  destruct ((0 <=? v) && (v <=? 4095)) eqn:R; cbn [negb]; [|left; reflexivity].
  destruct (String.prefix "-" x1) eqn:P; cbn; [left; reflexivity|].
  right. exists v. apply andb_true_iff in R as [R1 R2]. apply Z.leb_le in R1, R2.
  split; [reflexivity|]. split; [lia|]. split; reflexivity.
Qed.

(** BREAK, CLEAR, ACSTOP and ACLEAR keep the breakpoint list and the
    address-compare-stop list free of duplicates. *)
Theorem stop_lists_nodup (int8 : string -> option Z) (args : list string) (s : cpu) :
  NoDup s.(bpt) -> NoDup s.(acs) ->
  (NoDup (do_break int8 args s).(bpt) /\ NoDup (do_break int8 args s).(acs)) /\
  (NoDup (do_clear int8 args s).(bpt) /\ NoDup (do_clear int8 args s).(acs)) /\
  (NoDup (do_acstop int8 args s).(bpt) /\ NoDup (do_acstop int8 args s).(acs)) /\
  (NoDup (do_aclear int8 args s).(bpt) /\ NoDup (do_aclear int8 args s).(acs)).
Proof.
  intros Nb Na.
  split; [apply NoDup_do_break; assumption|].
  split; [apply NoDup_do_clear; assumption|].
  split; [apply NoDup_do_acstop; assumption|].
  apply NoDup_do_aclear; assumption.
Qed.

Lemma stop_lists_nodup_witness :
  let s := do_break (fun _ => Some 5) ["5"] example_cpu in
  NoDup (do_break (fun _ => Some 5) ["5"] s).(bpt).
Proof.
  intros s.
  assert (Nb : NoDup s.(bpt)) by (vm_compute; apply NoDup_singleton).
  assert (Na : NoDup s.(acs)) by (vm_compute; apply NoDup_nil_2).
  exact (proj1 (proj1 (stop_lists_nodup (fun _ => Some 5) ["5"] s Nb Na))).
Defined.

(** BREAK x on an address that is not a breakpoint makes it one, and a
    following CLEAR x restores the state; likewise ACSTOP x then ACLEAR x
    for the address-compare stops. *)
Theorem break_then_clear (int8 : string -> option Z) (x : string) (ad : Z) (s : cpu) :
  parse_addr int8 x = Some ad ->
  (z_in ad s.(bpt) = false ->
   z_in ad (do_break int8 [x] s).(bpt) = true /\ do_clear int8 [x] (do_break int8 [x] s) = s) /\
  (z_in ad s.(acs) = false ->
   z_in ad (do_acstop int8 [x] s).(acs) = true /\ do_aclear int8 [x] (do_acstop int8 [x] s) = s).
Proof.
  intros Hp. split; intros Hz.
  - unfold do_clear, do_break. rewrite Hp, Hz. cbn [negb set_bpt bpt].
    assert (Hin : z_in ad (bpt s ++ [ad]) = true)
      by (apply z_in_In, in_or_app; right; left; reflexivity).
    split; [exact Hin|]. rewrite Hin. cbn [set_bpt bpt].
    rewrite list_remove_snoc; [destruct s; reflexivity|].
    intros Hi. apply z_in_In in Hi. congruence.
  - unfold do_aclear, do_acstop. rewrite Hp, Hz. cbn [negb set_acs acs].
    assert (Hin : z_in ad (acs s ++ [ad]) = true)
      by (apply z_in_In, in_or_app; right; left; reflexivity).
    split; [exact Hin|]. rewrite Hin. cbn [set_acs acs].
    rewrite list_remove_snoc; [destruct s; reflexivity|].
    intros Hi. apply z_in_In in Hi. congruence.
Qed.

Lemma break_then_clear_witness :
  do_clear (fun _ => Some 5) ["5"] (do_break (fun _ => Some 5) ["5"] example_cpu) = example_cpu.
Proof.
  exact (proj2 (proj1 (break_then_clear (fun _ => Some 5) "5" 5 example_cpu eq_refl) eq_refl)).
Defined.

(** On a duplicate-free list, CLEAR x (ACLEAR x) leaves no breakpoint
    (address-compare stop) at the address x. *)
Theorem clear_removes (int8 : string -> option Z) (x : string) (ad : Z) (s : cpu) :
  parse_addr int8 x = Some ad ->
  (NoDup s.(bpt) -> z_in ad (do_clear int8 [x] s).(bpt) = false) /\
  (NoDup s.(acs) -> z_in ad (do_aclear int8 [x] s).(acs) = false).
Proof.
  intros Hp. split; intros Nd.
  - unfold do_clear. rewrite Hp. destruct (z_in ad (bpt s)) eqn:E; [|exact E].
    cbn [set_bpt bpt]. apply not_true_iff_false. rewrite z_in_In.
    apply list_remove_notin. exact Nd.
  - unfold do_aclear. rewrite Hp. destruct (z_in ad (acs s)) eqn:E; [|exact E].
    cbn [set_acs acs]. apply not_true_iff_false. rewrite z_in_In.
    apply list_remove_notin. exact Nd.
Qed.

Lemma clear_removes_witness :
  z_in 5 (do_clear (fun _ => Some 5) ["5"] (set_bpt example_cpu [7; 5])).(bpt) = false.
Proof.
  assert (Nd : NoDup [7; 5]) by (constructor; [rewrite list_elem_of_In; intros [H|[]]; discriminate|apply NoDup_singleton]).
  exact (proj1 (clear_removes (fun _ => Some 5) "5" 5 (set_bpt example_cpu [7; 5]) eq_refl) Nd).
Defined.



(** STEP n (n >= 1) always returns, given fuel for n instructions, and
    raises the instruction counter by at most n: the loop stops once n
    instructions have run (a breakpoint stop counts as one without
    raising the counter). *)
Theorem step_count_bound (fuel : nat) (n : Z) (s : cpu) :
  1 <= n -> (Z.to_nat n <= fuel)%nat ->
  exists s' r, run_virtual_machine fuel (Some n) s = Some (s', r) /\
    s.(instruction_count) <= s'.(instruction_count) <= s.(instruction_count) + n.
Proof.
  intros Hn Hf.
  assert (G : forall held st, st.(instruction_count) = s.(instruction_count) ->
    exists s' r, rvm_loop fuel (Some n) 0 held "" st = Some (s', r) /\
      s.(instruction_count) <= s'.(instruction_count) <= s.(instruction_count) + n).
  { intros held st Hi.
    destruct (rvm_loop_bound fuel n 0 held "" st ltac:(lia) ltac:(rewrite Z.sub_0_r; exact Hf))
      as (s' & r & E & B).
    exists s', r. split; [exact E|lia]. }
  unfold run_virtual_machine. destruct (z_in _ _); apply G; reflexivity.
Qed.

Lemma step_count_bound_witness :
  exists s' r, run_virtual_machine 1 (Some 1) example_cpu = Some (s', r) /\
    example_cpu.(instruction_count) <= s'.(instruction_count) <= example_cpu.(instruction_count) + 1.
Proof. apply (step_count_bound 1 1 example_cpu); vm_compute; first [lia | discriminate]. Defined.



(** TA prints, in order, the 6-bit codes (high field first) of the
    64 - count words from the decoded address on, wrapping at 4096, and
    skips the code 0o66; memory is unchanged, the address advances by
    64 - count words, and the result reports the new address. *)
Theorem ta_prints_words (s : cpu) :
  0 <= s.(addr) < 4096 ->
  (fst (inst_ta s)).(tty) =
    s.(tty) ++ List.filter (fun c => negb (c =? 54))
                 (concat (map word_codes (read_words s.(mem) s.(addr) (Z.to_nat (64 - s.(count)))))) /\
  (fst (inst_ta s)).(mem) = s.(mem) /\
  (fst (inst_ta s)).(addr) = (s.(addr) + Z.of_nat (Z.to_nat (64 - s.(count)))) mod 4096 /\
  snd (inst_ta s) = inr ("next addr:     " +:+ fmt_oct 4 (fst (inst_ta s)).(addr)).
Proof. apply inst_ta_words. Qed.

Lemma ta_prints_words_witness :
  (fst (inst_ta example_cpu)).(mem) = example_cpu.(mem).
Proof. exact (proj1 (proj2 (ta_prints_words example_cpu ltac:(cbn; lia)))). Defined.

(** TI with accepted keys: the keys' Digiac codes are packed four to a
    word (first key in the high bits) and the 64 - count words are stored
    from the decoded address on, wrapping at 4096; the keys are consumed,
    the address advances by 64 - count, and TI returns the
    "next addr:" line. (The echo of each key is console output the model
    does not record; see [ti_char].) *)
Theorem ti_stores_packed (s : cpu) (keys rest : list Z) :
  Forall ti_key keys -> length keys = (4 * Z.to_nat (64 - s.(count)))%nat ->
  s.(kbd) = keys ++ rest -> 0 <= s.(addr) < 4096 ->
  (fst (inst_ti s)).(mem) = write_words s.(addr) (pack_words (map ti_code keys)) s.(mem) /\
  (fst (inst_ti s)).(kbd) = rest /\
  (fst (inst_ti s)).(addr) = (s.(addr) + Z.of_nat (Z.to_nat (64 - s.(count)))) mod 4096 /\
  snd (inst_ti s) = inr ("next addr:     " +:+ fmt_oct 4 (fst (inst_ti s)).(addr)).
Proof.
  intros Hv Hl Hk Ha.
  destruct (inst_ti_full s keys rest Hv Hl Hk Ha) as (H1 & H2 & H3 & _ & _ & H6).
  repeat split; assumption.
Qed.

Lemma ti_stores_packed_witness :
  let s := set_decode (set_kbd example_cpu [65; 66; 67; 68]) 51 63 0 in
  (fst (inst_ti s)).(mem) = write_words 0 [4531412] mem_zero.
Proof.
  intros s.
  assert (K : Forall ti_key [65; 66; 67; 68])
    by (repeat constructor; unfold ti_key; vm_compute; discriminate).
  exact (proj1 (ti_stores_packed s [65; 66; 67; 68] [] K eq_refl eq_refl
                  ltac:(cbn; lia))).
Defined.

(** Control-C during TI: the exception escapes, the complete groups of
    four keys typed before it have been stored as packed words, a partial
    group is lost, the keys up to the Control-C are consumed and the
    address has advanced by the number of words stored. *)
Theorem ti_control_c (s : cpu) (keys rest : list Z) :
  Forall ti_key keys -> (length keys < 4 * Z.to_nat (64 - s.(count)))%nat ->
  s.(kbd) = keys ++ 3 :: rest -> 0 <= s.(addr) < 4096 ->
  snd (inst_ti s) = inl KeyboardInterrupt /\
  (fst (inst_ti s)).(mem) = write_words s.(addr) (pack_words (map ti_code keys)) s.(mem) /\
  (fst (inst_ti s)).(kbd) = rest /\
  (fst (inst_ti s)).(addr) = (s.(addr) + Z.of_nat (length keys / 4)) mod 4096.
Proof. apply inst_ti_ctrl_c. Qed.

Lemma ti_control_c_witness :
  let s := set_decode (set_kbd example_cpu [65; 3; 66]) 51 63 0 in
  (fst (inst_ti s)).(mem) = mem_zero.
Proof.
  intros s.
  assert (K : Forall ti_key [65]) by (repeat constructor; unfold ti_key; vm_compute; discriminate).
  exact (proj1 (proj2 (ti_control_c s [65] [66] K ltac:(cbn; lia) eq_refl
                         ltac:(cbn; lia)))).
Defined.

(** TI ignores the keys [_ti_char] rejects with a bell: inserting such
    keys (other than Control-C) into the typed keys changes neither the
    result nor the final state, except for the keys left over, which are
    the former leftovers with rejected keys inserted. *)
Theorem ti_ignores_rejected_keys (s : cpu) (ks ks' : list Z) :
  junk_inserted ks ks' ->
  snd (inst_ti (set_kbd s ks')) = snd (inst_ti (set_kbd s ks)) /\
  exists k'', fst (inst_ti (set_kbd s ks')) = set_kbd (fst (inst_ti (set_kbd s ks))) k'' /\
    junk_inserted (fst (inst_ti (set_kbd s ks))).(kbd) k''.
Proof. apply inst_ti_junk. Qed.

Lemma ti_ignores_rejected_keys_witness :
  let s := set_decode example_cpu 51 63 0 in
  snd (inst_ti (set_kbd s [7; 65; 66; 67; 68])) = snd (inst_ti (set_kbd s [65; 66; 67; 68])).
Proof.
  intros s.
  assert (J : junk_inserted [65; 66; 67; 68] [7; 65; 66; 67; 68]).
  { apply ji_junk; [discriminate|reflexivity|repeat constructor]. }
  exact (proj1 (ti_ignores_rejected_keys s _ _ J)).
Defined.

(** TI then TA over the same words types back the keys: after TI stores
    64 - count words of accepted keys, a TA with the same count and
    address prints glyphs that are the typed keys, except that the key
    "¢" (code 0o66) is not printed. *)
Theorem ti_ta_roundtrip (s : cpu) (keys rest : list Z) :
  Forall ti_key keys -> length keys = (4 * Z.to_nat (64 - s.(count)))%nat ->
  s.(kbd) = keys ++ rest -> 0 <= s.(addr) < 4096 -> 0 <= s.(count) ->
  length s.(mem) = 4096%nat ->
  map ta_char (fst (inst_ta (set_decode (fst (inst_ti s)) 44 s.(count) s.(addr)))).(tty) =
  map ta_char s.(tty) ++ List.filter (fun k => negb (k =? 162)) keys.
Proof. apply ti_ta_glyphs. Qed.

Lemma ti_ta_roundtrip_witness :
  let s := set_decode (set_kbd example_cpu [65; 162; 66; 67]) 51 63 0 in
  map ta_char (fst (inst_ta (set_decode (fst (inst_ti s)) 44 s.(count) s.(addr)))).(tty) =
  [65; 66; 67].
Proof.
  intros s. apply (ti_ta_roundtrip s [65; 162; 66; 67] []);
    first [ reflexivity | lia
          | repeat constructor; unfold ti_key; vm_compute; discriminate ].
Defined.

(** tape_dump finishes on every file (with or without an error), and it
    finishes without an error only on an empty file or on a file whose
    last byte is 0x00. *)
Theorem tape_dump_result (buf : list Z) :
  exists evs err, tape_dump buf = Some (evs, err) /\
    (err = None -> buf = [] \/ exists pre, buf = pre ++ [0]).
Proof.
  unfold tape_dump.
  destruct (dump_loop (S (length buf)) (Z.of_nat (length buf)) buf) as [[evs err]|] eqn:E.
  - exists evs, err. split; [reflexivity|]. intros ->. exact (dump_loop_last _ _ _ _ E).
  - exfalso. exact (dump_loop_ends (S (length buf)) _ buf ltac:(lia) E).
Qed.

(** tape_dump on a file whose first non-zero byte is not 0x40: it reports
    the leading zero bytes removed and stops on the assertion
    [buf[0] == 0x40] before listing any word. *)
Theorem tape_dump_bad_sign (k : nat) (c : Z) (rest : list Z) :
  c <> 0 -> c <> 64 ->
  tape_dump (List.repeat 0 k ++ c :: rest) =
  Some ([DumpHeader (Z.of_nat k)], Some AssertionError).
Proof.
  intros Hc H64. unfold tape_dump.
  pose proof (lstrip0_zeros k c rest Hc) as L.
  assert (Hl : length (List.repeat 0 k ++ c :: rest) = (k + S (length rest))%nat)
    by (rewrite length_app, repeat_length; reflexivity).
  rewrite Hl.
  destruct (List.repeat 0 k ++ c :: rest) as [|b bs] eqn:N; [destruct k; discriminate|].
  cbn [dump_loop]. rewrite L. cbn [dump_block length].
  apply Z.eqb_neq in Hc, H64. rewrite Hc, H64. cbn [negb].
  do 4 f_equal. lia.
Qed.

Lemma tape_dump_bad_sign_witness :
  tape_dump [0; 0; 65; 1; 1; 1; 1; 0] = Some ([DumpHeader 2], Some AssertionError).
Proof. exact (tape_dump_bad_sign 2 65 [1; 1; 1; 1; 0] ltac:(lia) ltac:(lia)). Defined.

(** RT agrees with tape_dump: for a tape whose bytes are all at most
    0x40 (RT stops with RuntimeError on a larger byte, while tape_dump
    takes digit bytes mod 64) and a block of words that tape_dump lists
    (sign byte 0x40, four non-zero digit bytes each, ended by a 0x00),
    RT of as many words stores exactly the listed words from the decoded
    address on, advances the address by their number, and leaves the
    tape at the 0x00 that ended the block. *)
Theorem rt_reads_dumped_words (t : list Z) (ad : Z) (evs : list dump_event) (rest : list Z) (s : cpu) :
  dump_block ad t = (evs, inl rest) -> Forall tape_ok t -> s.(ptr) = Some t ->
  0 <= s.(addr) < 4096 ->
  (fst (rt_loop (length (dump_words evs)) s)).(mem) = write_words s.(addr) (dump_words evs) s.(mem) /\
  (fst (rt_loop (length (dump_words evs)) s)).(ptr) = Some rest /\
  (fst (rt_loop (length (dump_words evs)) s)).(addr) =
    (s.(addr) + Z.of_nat (length (dump_words evs))) mod 4096 /\
  snd (rt_loop (length (dump_words evs)) s) = inr tt.
Proof. apply rt_dump_block. Qed.

Lemma rt_reads_dumped_words_witness :
  let t := [64; 1; 2; 3; 4; 0] in
  (fst (rt_loop 1 (set_ptr example_cpu (Some t)))).(mem) = write_words 0 [270532] mem_zero.
Proof.
  intros t.
  assert (B : Forall tape_ok t) by (repeat constructor; unfold tape_ok; lia).
  exact (proj1 (rt_reads_dumped_words t 0 [DumpWord 0 270532] [0] (set_ptr example_cpu (Some t))
                  eq_refl B eq_refl ltac:(cbn; lia))).
Defined.
